(** * Geofence evaluation engine of the Praesidium backend

    A shallow embedding of the geofence helpers [calculateDistance],
    [isInsideGeofence] and [isGeofenceActiveNow] (imported by the route from
    [utils/geofence]), of [generateId] of [src/utils/codes.ts] and of the
    [POST /check] handler of [src/routes/geofence.ts], over the tables of
    [src/db/schema.ts].

    - JavaScript numbers that carry coordinates and distances are IEEE-754
      binary64 values: Rocq's primitive floats.
    - Integer-valued numbers (calendar fields, epoch milliseconds, stored
      epoch seconds) are [Z].
    - Strings are [string]; JavaScript compares strings code unit by code
      unit, which is [String.compare] on the strings met here (ASCII).
    - The handler is effectful: it queries and inserts into the database,
      reads the wall clock with [new Date()] and draws random bytes.  These
      effects are threaded through a state monad over [World]. *)

From Stdlib Require Import Floats ZArith List Ascii String Sorted.
From stdpp Require Import base option list gmap strings pretty.

Set Default Proof Using "Type".

(** ** Database rows ([src/db/schema.ts]) *)

Inductive EventType := enter | exit | dwell.

Global Instance EventType_eq_dec : EqDecision EventType.
Proof. solve_decision. Defined.

Record Schedule := {
  days : list Z;
  startTime : string;
  endTime : string;
}.

(** A row of [geofences].  The columns [type], [color], [icon], [createdAt]
    and [updatedAt] are never read by the evaluation and are left out.
    [notifyEnter], [notifyExit] and [isActive] are nullable booleans. *)
Module Geofence.
Record t := {
  id : string;
  userId : string;
  childId : option string;
  familyId : string;
  name : string;
  latitude : float;
  longitude : float;
  radius : float;
  notifyEnter : option bool;
  notifyExit : option bool;
  isActive : option bool;
  schedule : option Schedule;
}.
End Geofence.

(** A row of [geofence_events]. *)
Module GeofenceEvent.
Record t := {
  id : string;
  geofenceId : string;
  childId : string;
  eventType : EventType;
  latitude : float;
  longitude : float;
  timestamp : Z;   (* [integer('timestamp', { mode: 'timestamp' })]: epoch seconds *)
}.
End GeofenceEvent.

(** [AuthenticatedUser] of [src/middleware/auth.ts]. *)
Module User.
Inductive Role := parent | child.
Record t := {
  id : string;
  email : string;
  displayName : string;
  role : Role;
  avatar : option string;
  familyId : option string;
  parentId : option string;
  pairingCode : option string;
}.
End User.

(** ** The host: clock, randomness and the database *)

(** A reading of [new Date()]: epoch milliseconds together with the local
    calendar fields the host derives from them. *)
Module Date.
Record t := {
  getTime : Z;
  getDay : Z;
  getHours : Z;
  getMinutes : Z;
}.
End Date.

Inductive Table := tbl_users | tbl_geofences | tbl_geofenceEvents.

Inductive Statement :=
  | SELECT (t : Table)
  | INSERT (t : Table)
  | UPDATE (t : Table)
  | DELETE (t : Table).

Global Instance Table_eq_dec : EqDecision Table.
Proof. solve_decision. Defined.

Global Instance Statement_eq_dec : EqDecision Statement.
Proof. solve_decision. Defined.

Record World := {
  users : list User.t;
  geofences : list Geofence.t;
  geofenceEvents : list GeofenceEvent.t;   (* in insertion (rowid) order *)
  journal : list Statement;                (* statements issued, oldest first *)
  clock : nat -> Date.t;                   (* successive readings of the wall clock *)
  ticks : nat;                             (* readings taken so far *)
  entropy : nat -> N;                      (* the byte stream behind crypto.randomBytes *)
  drawn : nat;                             (* bytes drawn so far *)
}.

Definition set_geofenceEvents (rows : list GeofenceEvent.t) (w : World) : World :=
  {| users := users w; geofences := geofences w;
     geofenceEvents := rows; journal := journal w;
     clock := clock w; ticks := ticks w;
     entropy := entropy w; drawn := drawn w |}.

Definition set_journal (j : list Statement) (w : World) : World :=
  {| users := users w; geofences := geofences w;
     geofenceEvents := geofenceEvents w; journal := j;
     clock := clock w; ticks := ticks w;
     entropy := entropy w; drawn := drawn w |}.

Definition set_ticks (n : nat) (w : World) : World :=
  {| users := users w; geofences := geofences w;
     geofenceEvents := geofenceEvents w; journal := journal w;
     clock := clock w; ticks := n;
     entropy := entropy w; drawn := drawn w |}.

Definition set_drawn (n : nat) (w : World) : World :=
  {| users := users w; geofences := geofences w;
     geofenceEvents := geofenceEvents w; journal := journal w;
     clock := clock w; ticks := ticks w;
     entropy := entropy w; drawn := n |}.

Definition M (A : Type) : Type := World -> A * World.

Definition ret {A} (a : A) : M A := fun w => (a, w).

Definition bind {A B} (m : M A) (k : A -> M B) : M B :=
  fun w => let (a, w') := m w in k a w'.

Declare Scope js_scope.
Delimit Scope js_scope with js.
Notation "'let!' x ':=' m 'in' k" := (bind m (fun x => k))
  (at level 10, x name, m at level 100, k at level 200) : js_scope.
Notation "'do!' m 'in' k" := (bind m (fun _ => k))
  (at level 10, m at level 100, k at level 200) : js_scope.
Open Scope js_scope.

(** [new Date()] *)
Definition new_Date : M Date.t := fun w =>
  (clock w (ticks w), set_ticks (S (ticks w)) w).

(** [crypto.randomBytes(n)] *)
Definition randomBytes (n : nat) : M (list N) := fun w =>
  (map (fun i => (entropy w (drawn w + i) mod 256)%N) (seq 0 n),
   set_drawn (drawn w + n) w).

(** ** JavaScript values *)

(** Truthiness of a nullable string: [null] and [''] are falsy. *)
Definition truthy_str (s : option string) : bool :=
  match s with
  | Some s => negb (String.eqb s "")
  | None => false
  end.

(** Truthiness of a nullable boolean. *)
Definition truthy_bool (b : option bool) : bool :=
  match b with
  | Some b => b
  | None => false
  end.

(** [String(n)] for an integer-valued number. *)
Definition String_of (n : Z) : string := pretty n.

(** [s.padStart(n, c)] for a one-character pad string. *)
Definition padStart (n : nat) (c : Ascii.ascii) (s : string) : string :=
  string_of_list_ascii (repeat c (n - String.length s)) +:+ s.

(** [a >= b] and [a <= b] on strings. *)
Definition str_ge (a b : string) : bool := String.leb b a.
Definition str_le (a b : string) : bool := String.leb a b.

(** [xs.includes(x)] on an array of integer-valued numbers. *)
Definition includes (xs : list Z) (x : Z) : bool := existsb (Z.eqb x) xs.

(** The parts of [Math] the code calls whose results depend on the host's
    numeric library.  [Math.sqrt] is correctly rounded and is
    [PrimFloat.sqrt]. *)
Class HostMath := {
  Math_sin : float -> float;
  Math_cos : float -> float;
  Math_atan2 : float -> float -> float;
}.

Definition Math_PI : float := 0x1.921fb54442d18p+1%float.

(** ** [src/utils/codes.ts] *)

Definition idAlphabet : string :=
  "ABCDEFGHIJKLMNOPQRSTUVWXYZabcdefghijklmnopqrstuvwxyz0123456789_-".

(** [generateId]: 21 characters drawn from [idAlphabet]. *)
Definition generateId : M string :=
  let! bytes := randomBytes 21 in
  ret (string_of_list_ascii
         (map (fun b => default "A"%char
                 (String.get (N.to_nat (b mod N.of_nat (String.length idAlphabet))) idAlphabet))
              bytes)).

Section Geometry.
Context `{HostMath}.

Definition toRad (deg : float) : float := (deg * (Math_PI / 180))%float.

(** Haversine distance in meters. *)
Definition calculateDistance (lat1 lon1 lat2 lon2 : float) : float :=
  let R := 6371000%float in
  let dLat := toRad (lat2 - lat1)%float in
  let dLon := toRad (lon2 - lon1)%float in
  let a :=
    (Math_sin (dLat / 2) * Math_sin (dLat / 2) +
     Math_cos (toRad lat1) * Math_cos (toRad lat2) * Math_sin (dLon / 2) * Math_sin (dLon / 2))%float in
  let c := (2 * Math_atan2 (PrimFloat.sqrt a) (PrimFloat.sqrt (1 - a)))%float in
  (R * c)%float.

Definition isInsideGeofence
    (pointLat pointLon geofenceLat geofenceLon radiusMeters : float) : bool :=
  let distance := calculateDistance pointLat pointLon geofenceLat geofenceLon in
  (distance <=? radiusMeters)%float.
End Geometry.

(** The schedule test of [isGeofenceActiveNow] against one clock reading. *)
Definition currentTime_of (now : Date.t) : string :=
  padStart 2 "0"%char (String_of (Date.getHours now)) +:+ ":" +:+
  padStart 2 "0"%char (String_of (Date.getMinutes now)).

Definition scheduleActiveAt (s : Schedule) (now : Date.t) : bool :=
  let currentDay := Date.getDay now in
  let currentTime := currentTime_of now in
  if negb (includes (days s) currentDay) then false
  else str_ge currentTime (startTime s) && str_le currentTime (endTime s).

(** [isGeofenceActiveNow]: the clock is read only for a non-null schedule. *)
Definition isGeofenceActiveNow (schedule : option Schedule) : M bool :=
  match schedule with
  | None => ret true
  | Some s => let! now := new_Date in ret (scheduleActiveAt s now)
  end.

(** ** Database access (drizzle over SQLite) *)

Definition issue (s : Statement) : M unit := fun w =>
  (tt, set_journal (journal w ++ [s]) w).

(** [db.query.geofences.findMany({ where })]: rows in table order. *)
Definition findMany_geofences (where_ : Geofence.t -> bool) : M (list Geofence.t) :=
  do! issue (SELECT tbl_geofences) in
  fun w => (List.filter where_ (geofences w), w).

(** [ORDER BY timestamp DESC]: rows with equal timestamps keep their table
    order. *)
Fixpoint insert_desc (e : GeofenceEvent.t) (l : list GeofenceEvent.t) : list GeofenceEvent.t :=
  match l with
  | [] => [e]
  | x :: l' =>
      if (GeofenceEvent.timestamp x <=? GeofenceEvent.timestamp e)%Z
      then e :: x :: l'
      else x :: insert_desc e l'
  end.

Definition orderBy_desc_timestamp (l : list GeofenceEvent.t) : list GeofenceEvent.t :=
  fold_right insert_desc [] l.

(** [db.query.geofenceEvents.findMany({ where, orderBy: [desc(timestamp)], limit })].
    The handler passes [limit = 0] only when it has no geofence to loop
    over, and then does not look at the result. *)
Definition findMany_geofenceEvents
    (where_ : GeofenceEvent.t -> bool) (limit : nat) : M (list GeofenceEvent.t) :=
  do! issue (SELECT tbl_geofenceEvents) in
  fun w => (firstn limit (orderBy_desc_timestamp (List.filter where_ (geofenceEvents w))), w).

(** A [Date] as stored in a [{ mode: 'timestamp' }] column: whole seconds. *)
Definition mapToDriverValue (d : Date.t) : Z := (Date.getTime d / 1000)%Z.

(** [db.insert(geofenceEvents).values(event)] *)
Definition insert_geofenceEvents (event : GeofenceEvent.t) : M unit :=
  do! issue (INSERT tbl_geofenceEvents) in
  fun w => (tt, set_geofenceEvents (geofenceEvents w ++ [event]) w).

(** ** [POST /check] of [src/routes/geofence.ts] *)

(** An entry of the [events] array of the response. *)
Module Transition.
Record t := {
  geofenceId : string;
  geofenceName : string;
  eventType : EventType;
  timestamp : Date.t;
}.
End Transition.

Record CheckBody := {
  events : list Transition.t;
  currentZones : list string;
}.

Inductive Response :=
  | res_json (status : Z) (body : CheckBody)
  | res_error (status : Z) (error : string).

(** The filter callback [(g) => !g.childId || g.childId === user.id]. *)
Definition applies_to (user : User.t) (g : Geofence.t) : bool :=
  negb (truthy_str (Geofence.childId g)) ||
  bool_decide (Geofence.childId g = Some (User.id user)).

Definition applicableGeofences (user : User.t) (familyGeofences : list Geofence.t)
    : list Geofence.t :=
  List.filter (applies_to user) familyGeofences.

(** [applicableGeofences.filter((g) => isGeofenceActiveNow(g.schedule))]:
    the callback runs on every element in order. *)
Fixpoint activeGeofences (applicable : list Geofence.t) : M (list Geofence.t) :=
  match applicable with
  | [] => ret []
  | g :: rest =>
      let! keep := isGeofenceActiveNow (Geofence.schedule g) in
      let! rest' := activeGeofences rest in
      ret (if keep then g :: rest' else rest')
  end.

(** The loop that fills [lastStateMap] from [lastEvents]. *)
Definition lastStateMap_step (m : gmap string EventType) (event : GeofenceEvent.t)
    : gmap string EventType :=
  if negb (bool_decide (is_Some (m !! GeofenceEvent.geofenceId event))) &&
     (bool_decide (GeofenceEvent.eventType event = enter) ||
      bool_decide (GeofenceEvent.eventType event = exit))
  then <[GeofenceEvent.geofenceId event := GeofenceEvent.eventType event]> m
  else m.

Definition lastStateMap (lastEvents : list GeofenceEvent.t) : gmap string EventType :=
  fold_left lastStateMap_step lastEvents ∅.

Section Check.
Context `{HostMath}.

Definition isInside (latitude longitude : float) (geofence : Geofence.t) : bool :=
  isInsideGeofence latitude longitude
    (Geofence.latitude geofence) (Geofence.longitude geofence) (Geofence.radius geofence).

(** Appending one event row and its entry in the response. *)
Definition emit (user : User.t) (latitude longitude : float) (geofence : Geofence.t)
    (ty : EventType) (events : list Transition.t) : M (list Transition.t) :=
  let! eventId := generateId in
  let! timestamp := new_Date in
  let event :=
    {| GeofenceEvent.id := eventId;
       GeofenceEvent.geofenceId := Geofence.id geofence;
       GeofenceEvent.childId := User.id user;
       GeofenceEvent.eventType := ty;
       GeofenceEvent.latitude := latitude;
       GeofenceEvent.longitude := longitude;
       GeofenceEvent.timestamp := mapToDriverValue timestamp |} in
  do! insert_geofenceEvents event in
  ret (events ++
       [{| Transition.geofenceId := Geofence.id geofence;
           Transition.geofenceName := Geofence.name geofence;
           Transition.eventType := ty;
           Transition.timestamp := timestamp |}]).

(** The body of [for (const geofence of activeGeofences)]. *)
Definition checkGeofence (user : User.t) (latitude longitude : float)
    (lastStates : gmap string EventType)
    (acc : list Transition.t * list string) (geofence : Geofence.t)
    : M (list Transition.t * list string) :=
  let (events, currentZones) := acc in
  let lastState := lastStates !! Geofence.id geofence in
  if isInside latitude longitude geofence then
    let currentZones := currentZones ++ [Geofence.name geofence] in
    if negb (bool_decide (lastState = Some enter)) &&
       truthy_bool (Geofence.notifyEnter geofence)
    then
      let! events := emit user latitude longitude geofence enter events in
      ret (events, currentZones)
    else ret (events, currentZones)
  else
    if bool_decide (lastState = Some enter) &&
       truthy_bool (Geofence.notifyExit geofence)
    then
      let! events := emit user latitude longitude geofence exit events in
      ret (events, currentZones)
    else ret (events, currentZones).

Fixpoint checkAll (user : User.t) (latitude longitude : float)
    (lastStates : gmap string EventType)
    (active : list Geofence.t) (acc : list Transition.t * list string)
    : M (list Transition.t * list string) :=
  match active with
  | [] => ret acc
  | geofence :: rest =>
      let! acc' := checkGeofence user latitude longitude lastStates acc geofence in
      checkAll user latitude longitude lastStates rest acc'
  end.

(** The geofences the evaluation runs over, for a caller in family [fid]:
    active rows of the family, applicable to the caller, whose schedule
    passes now. *)
Definition selectGeofences (user : User.t) (fid : string) : M (list Geofence.t) :=
  let! familyGeofences :=
    findMany_geofences (fun g =>
      String.eqb (Geofence.familyId g) fid &&
      bool_decide (Geofence.isActive g = Some true)) in
  activeGeofences (applicableGeofences user familyGeofences).

(** The handler; [latitude] and [longitude] have passed validation.  Past
    the first test [user.familyId] is a non-empty string. *)
Definition check (user : User.t) (latitude longitude : float) : M Response :=
  if negb (truthy_str (User.familyId user)) then
    ret (res_json 200 {| events := []; currentZones := [] |})
  else
    let! active := selectGeofences user (default "" (User.familyId user)) in
    let! lastEvents :=
      findMany_geofenceEvents
        (fun e => String.eqb (GeofenceEvent.childId e) (User.id user))
        (length active) in
    let lastStates := lastStateMap lastEvents in
    let! result := checkAll user latitude longitude lastStates active ([], []) in
    ret (res_json 200 {| events := result.1; currentZones := result.2 |}).
End Check.

(** ** A reference numeric library

    Polynomial stand-ins for the host's [Math.sin], [Math.cos] and
    [Math.atan2], used to run the handler on concrete inputs.  They are exact
    at the arguments that matter below ([sin 0 = 0], [atan2 0 x = 0] for
    positive [x]) and accurate to well under a metre of haversine distance
    over the whole range of valid coordinates.  Every general theorem is
    stated for an arbitrary [HostMath]. *)
Module RefMath.
(** [x * (c0 + y * (c1 + y * (...)))] with [y = x * x]. *)
Definition horner (y : float) (cs : list float) : float :=
  fold_right (fun c acc => (c + y * acc)%float) 0%float cs.

Definition sin (x : float) : float :=
  (x * horner (x * x)
     [1; -1 / 6; 1 / 120; -1 / 5040; 1 / 362880; -1 / 39916800;
      1 / 6227020800; -1 / 1307674368000; 1 / 355687428096000;
      -1 / 121645100408832000; 1 / 51090942171709440000])%float.

Definition cos (x : float) : float :=
  horner (x * x)
    [1; -1 / 2; 1 / 24; -1 / 720; 1 / 40320; -1 / 3628800;
     1 / 479001600; -1 / 87178291200; 1 / 20922789888000;
     -1 / 6402373705728000; 1 / 2432902008176640000]%float.

(** [atan z = 2 * atan (z / (1 + sqrt (1 + z * z)))] *)
Definition halve (z : float) : float :=
  (z / (1 + PrimFloat.sqrt (1 + z * z)))%float.

Definition atan_small (z : float) : float :=
  (z * horner (z * z)
     [1; -1 / 3; 1 / 5; -1 / 7; 1 / 9; -1 / 11; 1 / 13; -1 / 15; 1 / 17])%float.

(** Arc tangent on [0 <= z <= 1]. *)
Definition atan_unit (z : float) : float :=
  (8 * atan_small (halve (halve (halve z))))%float.

(** Arc tangent of [y / x] for [0 <= y] and [0 <= x], the quadrant in
    which [calculateDistance] calls it. *)
Definition atan2 (y x : float) : float :=
  if (y <=? x)%float then atan_unit (y / x)
  else (Math_PI / 2 - atan_unit (x / y))%float.

#[export] Instance ref : HostMath :=
  {| Math_sin := sin; Math_cos := cos; Math_atan2 := atan2 |}.
End RefMath.

(** ** Reading the handler as a state machine *)

(** The event type, if any, that one pass of the loop body appends for a
    geofence, from the state it looked up and the outcome of the spatial
    test: the two guarded branches of [checkGeofence]. *)
Definition emitted (lastState : option EventType) (inside : bool) (geofence : Geofence.t)
    : option EventType :=
  if inside then
    if negb (bool_decide (lastState = Some enter)) &&
       truthy_bool (Geofence.notifyEnter geofence)
    then Some enter else None
  else
    if bool_decide (lastState = Some enter) &&
       truthy_bool (Geofence.notifyExit geofence)
    then Some exit else None.

(** The zone state machine as the specification words it: states
    [Unknown], [Inside], [Outside] per (child, geofence) pair. *)
Inductive ZoneState := Unknown | Inside | Outside.

Definition zoneState (lastState : option EventType) : ZoneState :=
  match lastState with
  | Some enter => Inside
  | Some exit => Outside
  | _ => Unknown
  end.

(** [Unknown|Outside --(isInside, notifyEnter)--> Inside] emitting [enter];
    [Inside --(not isInside, notifyExit)--> Outside] emitting [exit]; every
    other combination is a self-loop without emission. *)
Definition zone_step (s : ZoneState) (inside notifyEnter notifyExit : bool)
    : ZoneState * option EventType :=
  match s, inside with
  | Unknown, true | Outside, true =>
      if notifyEnter then (Inside, Some enter) else (s, None)
  | Inside, false =>
      if notifyExit then (Outside, Some exit) else (s, None)
  | _, _ => (s, None)
  end.

(** An event that [lastStateMap] may record for the geofence [geofenceId]. *)
Definition is_state_of (geofenceId : string) (e : GeofenceEvent.t) : bool :=
  String.eqb (GeofenceEvent.geofenceId e) geofenceId &&
  (bool_decide (GeofenceEvent.eventType e = enter) ||
   bool_decide (GeofenceEvent.eventType e = exit)).

(** The last known membership state of a (geofence, child) pair as the
    specification words it: the type of the first [enter] or [exit] event of
    the pair when the whole log is read in descending timestamp order. *)
Definition is_membership_event (geofenceId childId : string) (e : GeofenceEvent.t) : bool :=
  String.eqb (GeofenceEvent.geofenceId e) geofenceId &&
  String.eqb (GeofenceEvent.childId e) childId &&
  (bool_decide (GeofenceEvent.eventType e = enter) ||
   bool_decide (GeofenceEvent.eventType e = exit)).

Definition lastKnownState (log : list GeofenceEvent.t) (geofenceId childId : string)
    : option EventType :=
  GeofenceEvent.eventType <$>
    head (List.filter (is_membership_event geofenceId childId) (orderBy_desc_timestamp log)).

(** Projections of a response. *)
Definition body_of (r : Response) : CheckBody :=
  match r with
  | res_json _ body => body
  | res_error _ _ => {| events := []; currentZones := [] |}
  end.

Definition status_of (r : Response) : Z :=
  match r with
  | res_json status _ => status
  | res_error status _ => status
  end.

(** ** What one evaluation does to the world *)

(** [w'] is [w] after appending [rows] to the event table: the other tables,
    the clock and the entropy source are those of [w]. *)
Definition appended (w w' : World) (rows : list GeofenceEvent.t) : Prop :=
  users w' = users w /\
  geofences w' = geofences w /\
  geofenceEvents w' = geofenceEvents w ++ rows /\
  clock w' = clock w /\
  ticks w <= ticks w' /\
  entropy w' = entropy w /\
  journal w' = journal w ++ repeat (INSERT tbl_geofenceEvents) (length rows).

(** The response entry and the stored row that the loop body produces for a
    geofence and an event type, stamped by a clock reading not earlier than
    the [ticks] of [w]. *)
Definition emitted_as (user : User.t) (latitude longitude : float) (w : World)
    (d : Geofence.t * EventType) (p : Transition.t * GeofenceEvent.t) : Prop :=
  Transition.geofenceId p.1 = Geofence.id d.1 /\
  Transition.geofenceName p.1 = Geofence.name d.1 /\
  Transition.eventType p.1 = d.2 /\
  (exists j, ticks w <= j /\ Transition.timestamp p.1 = clock w j) /\
  GeofenceEvent.geofenceId p.2 = Geofence.id d.1 /\
  GeofenceEvent.childId p.2 = User.id user /\
  GeofenceEvent.eventType p.2 = d.2 /\
  GeofenceEvent.latitude p.2 = latitude /\
  GeofenceEvent.longitude p.2 = longitude /\
  GeofenceEvent.timestamp p.2 = mapToDriverValue (Transition.timestamp p.1).

Section Outcome.
Context `{HostMath}.

(** The geofences of [active] for which the loop appends an event, in
    order, each with the type of its event. *)
Definition decisions (latitude longitude : float) (lastStates : gmap string EventType)
    (active : list Geofence.t) : list (Geofence.t * EventType) :=
  flat_map (fun g =>
    match emitted (lastStates !! Geofence.id g) (isInside latitude longitude g) g with
    | Some ty => [(g, ty)]
    | None => []
    end) active.

(** The names the loop pushes to [currentZones]. *)
Definition zonesOf (latitude longitude : float) (active : list Geofence.t) : list string :=
  map Geofence.name (List.filter (isInside latitude longitude) active).
End Outcome.

(** The rows of the geofence table that [selectGeofences] passes to the
    schedule filter. *)
Definition candidates (user : User.t) (fid : string) (w : World) : list Geofence.t :=
  applicableGeofences user
    (List.filter (fun g =>
       String.eqb (Geofence.familyId g) fid &&
       bool_decide (Geofence.isActive g = Some true)) (geofences w)).

(** The events a call by [user] reads back: the [limit] most recent rows
    of the child. *)
Definition lastEventsOf (user : User.t) (limit : nat) (w : World) : list GeofenceEvent.t :=
  firstn limit
    (orderBy_desc_timestamp
       (List.filter (fun e => String.eqb (GeofenceEvent.childId e) (User.id user))
          (geofenceEvents w))).

(** ** Vocabulary of the properties *)

(** [id] is the primary key of the geofence table. *)
Definition primary_key (w : World) : Prop :=
  List.NoDup (map Geofence.id (geofences w)).

(** No other row of the geofence table carries the name of [g]. *)
Definition unique_name (w : World) (g : Geofence.t) : Prop :=
  forall z, In z (geofences w) -> Geofence.name z = Geofence.name g -> z = g.

(** The schedule of [g], if it has one, is active at every reading the
    clock gives from now on. *)
Definition passesSchedule (w : World) (g : Geofence.t) : Prop :=
  match Geofence.schedule g with
  | None => True
  | Some s => forall k, ticks w <= k -> scheduleActiveAt s (clock w k) = true
  end.

(** [g] has a schedule and it excludes every reading the clock gives from
    now on. *)
Definition failsSchedule (w : World) (g : Geofence.t) : Prop :=
  exists s, Geofence.schedule g = Some s /\
    forall k, ticks w <= k -> scheduleActiveAt s (clock w k) = false.

(** The types of the events a response reports for geofence [g]. *)
Definition eventsFor (g : Geofence.t) (r : Response) : list EventType :=
  map Transition.eventType
    (List.filter (fun e => String.eqb (Transition.geofenceId e) (Geofence.id g))
       (events (body_of r))).

(** The rows the event table gained between [w] and [w'], and the types of
    those that belong to geofence [g]. *)
Definition newRows (w w' : World) : list GeofenceEvent.t :=
  skipn (length (geofenceEvents w)) (geofenceEvents w').

Definition rowsFor (g : Geofence.t) (w w' : World) : list EventType :=
  map GeofenceEvent.eventType
    (List.filter (fun e => String.eqb (GeofenceEvent.geofenceId e) (Geofence.id g))
       (newRows w w')).

(** [POST /] stores [req.body.childId || null] (line 51): a falsy
    [childId] is stored as null. *)
Definition stored_childId (body_childId : option string) : option string :=
  if truthy_str body_childId then body_childId else None.

(** No row of the geofence table carries the empty string as [childId]:
    a non-null [childId] names a child. *)
Definition childIds_stored (w : World) : Prop :=
  forall g, In g (geofences w) -> Geofence.childId g <> Some "".

(** A geofence without its notification policy. *)
Definition forget_policy (g : Geofence.t) : Geofence.t :=
  {| Geofence.id := Geofence.id g; Geofence.userId := Geofence.userId g;
     Geofence.childId := Geofence.childId g; Geofence.familyId := Geofence.familyId g;
     Geofence.name := Geofence.name g;
     Geofence.latitude := Geofence.latitude g; Geofence.longitude := Geofence.longitude g;
     Geofence.radius := Geofence.radius g;
     Geofence.notifyEnter := None; Geofence.notifyExit := None;
     Geofence.isActive := Geofence.isActive g; Geofence.schedule := Geofence.schedule g |}.

(** ** A family with two overlapping zones

    "Town" is centred at (40, -74) and "Campus" 0.0625 degrees (about
    6.9 km) further north, both with a radius of 5000 m, family-wide, not
    scheduled and notifying in both directions.  The point (40.03125, -74)
    lies in both, (40.0625, -74) in "Campus" only and (40, -74) in "Town"
    only.  The clock advances one second per reading. *)
Module Example.
Import RefMath.

Definition kid : User.t :=
  {| User.id := "kid"; User.email := "kid@example.org"; User.displayName := "Kid";
     User.role := User.child; User.avatar := None; User.familyId := Some "fam";
     User.parentId := Some "mum"; User.pairingCode := None |}.

Definition loner : User.t :=
  {| User.id := "loner"; User.email := "loner@example.org"; User.displayName := "Loner";
     User.role := User.child; User.avatar := None; User.familyId := None;
     User.parentId := None; User.pairingCode := None |}.

Definition zone (id name : string) (latitude : float) : Geofence.t :=
  {| Geofence.id := id; Geofence.userId := "mum"; Geofence.childId := None;
     Geofence.familyId := "fam"; Geofence.name := name;
     Geofence.latitude := latitude; Geofence.longitude := (-74)%float;
     Geofence.radius := 5000%float;
     Geofence.notifyEnter := Some true; Geofence.notifyExit := Some true;
     Geofence.isActive := Some true; Geofence.schedule := None |}.

Definition town : Geofence.t := zone "g-town" "Town" 40%float.

(** "Town" with entry notifications switched off. *)
Definition quiet_town : Geofence.t :=
  {| Geofence.id := "g-town"; Geofence.userId := "mum"; Geofence.childId := None;
     Geofence.familyId := "fam"; Geofence.name := "Town";
     Geofence.latitude := 40%float; Geofence.longitude := (-74)%float;
     Geofence.radius := 5000%float;
     Geofence.notifyEnter := Some false; Geofence.notifyExit := Some true;
     Geofence.isActive := Some true; Geofence.schedule := None |}.

(** A zone around the same centre that applies to a sibling only. *)
Definition sister_zone : Geofence.t :=
  {| Geofence.id := "g-sis"; Geofence.userId := "mum"; Geofence.childId := Some "sis";
     Geofence.familyId := "fam"; Geofence.name := "Ballet";
     Geofence.latitude := 40%float; Geofence.longitude := (-74)%float;
     Geofence.radius := 5000%float;
     Geofence.notifyEnter := Some true; Geofence.notifyExit := Some true;
     Geofence.isActive := Some true; Geofence.schedule := None |}.

(** A zone around the same centre that is scheduled for weekend afternoons. *)
Definition weekend_zone : Geofence.t :=
  {| Geofence.id := "g-pool"; Geofence.userId := "mum"; Geofence.childId := None;
     Geofence.familyId := "fam"; Geofence.name := "Pool";
     Geofence.latitude := 40%float; Geofence.longitude := (-74)%float;
     Geofence.radius := 5000%float;
     Geofence.notifyEnter := Some true; Geofence.notifyExit := Some true;
     Geofence.isActive := Some true;
     Geofence.schedule := Some {| days := [0; 6]%Z; startTime := "13:00"; endTime := "18:30" |} |}.
Definition campus : Geofence.t := zone "g-campus" "Campus" 40.0625%float.

(** A Wednesday morning, one second per reading. *)
Definition wall_clock (k : nat) : Date.t :=
  {| Date.getTime := 1700000000000 + 1000 * Z.of_nat k;
     Date.getDay := 3; Date.getHours := 10; Date.getMinutes := 30 |}.

Definition world (directory : list Geofence.t) (log : list GeofenceEvent.t) : World :=
  {| users := [kid; loner]; geofences := directory; geofenceEvents := log;
     journal := []; clock := wall_clock; ticks := 0;
     entropy := fun i => N.of_nat (7 * i + 3); drawn := 0 |}.

(** The world after the child has reported, in this order, from
    "Campus" only, from the overlap and from "Town" only, starting with an
    empty log; and after it has then reported from the overlap again. *)
Definition after_three_reports : World :=
  let w0 := world [town; campus] [] in
  let w1 := (check kid 40.0625 (-74) w0).2 in
  let w2 := (check kid 40.03125 (-74) w1).2 in
  (check kid 40 (-74) w2).2.

Definition after_four_reports : World :=
  (check kid 40.03125 (-74) after_three_reports).2.

(** What a response says happened, without the timestamps. *)
Definition summary (r : Response) : list (string * EventType) * list string :=
  (map (fun e => (Transition.geofenceName e, Transition.eventType e)) (events (body_of r)),
   currentZones (body_of r)).
End Example.

(** ** Times of day *)

(** The ["HH:MM"] rendering that [isGeofenceActiveNow] gives the current
    time, for any hour and minute. *)
Definition hhmm (h m : Z) : string :=
  padStart 2 "0"%char (String_of h) +:+ ":" +:+ padStart 2 "0"%char (String_of m).

(** Minutes since local midnight. *)
Definition minuteOfDay (h m : Z) : Z := (60 * h + m)%Z.

(** The integers from 0 to 99. *)
Definition below_100 : list Z := map Z.of_nat (seq 0 100).

Definition comparison_eqb (c1 c2 : comparison) : bool :=
  match c1, c2 with
  | Eq, Eq | Lt, Lt | Gt, Gt => true
  | _, _ => false
  end.

(** Two numbers below 100, padded to two digits, compare as strings the way
    they compare as numbers. *)
Definition pad2_agrees (a b : Z) : bool :=
  comparison_eqb
    (String.compare (padStart 2 "0"%char (String_of a)) (padStart 2 "0"%char (String_of b)))
    (a ?= b)%Z.

(** A Saturday, at 13:00 sharp. *)
Definition saturday_1300 : Date.t :=
  {| Date.getTime := 1700312400000; Date.getDay := 6;
     Date.getHours := 13; Date.getMinutes := 0 |}.

Definition pool_hours : Schedule :=
  {| days := [0; 6]%Z; startTime := "13:00"; endTime := "18:30" |}.

(** Most recent first. *)
Definition not_older (x y : GeofenceEvent.t) : Prop :=
  (GeofenceEvent.timestamp y <= GeofenceEvent.timestamp x)%Z.

(** * The rest of [src/utils/codes.ts] and of [src/routes/geofence.ts] *)

(** ** Codes *)

Definition alphabet : string := "ABCDEFGHJKLMNPQRSTUVWXYZ23456789".

(** [alpha[b % alpha.length]] *)
Definition pick (alpha : string) (b : N) : ascii :=
  default "A"%char (String.get (N.to_nat (b mod N.of_nat (String.length alpha))) alpha).

(** [generateCode(length)] *)
Definition generateCode (length : nat) : M string :=
  let! bytes := randomBytes length in
  ret (string_of_list_ascii (map (pick alphabet) bytes)).

(** Family invite code. *)
Definition createInviteCode : M string := generateCode 6.

(** Child pairing code: the template literal calls [generateCode(4)] twice,
    left to right. *)
Definition createPairingCode : M string :=
  let! first := generateCode 4 in
  let! second := generateCode 4 in
  ret (first +:+ "-" +:+ second).

(** The 256 values a byte can take. *)
Definition all_bytes : list N := map N.of_nat (seq 0 256).

(** How many byte values [pick] maps to the character [c]. *)
Definition preimages (alpha : string) (c : ascii) : nat :=
  length (List.filter (fun b => Ascii.eqb (pick alpha b) c) all_bytes).

(** ** [getContainingGeofences] *)

Section Containing.
Context `{HostMath}.
Context {T : Type} (latitude_of longitude_of radius_of : T -> float).

(** Generic in the row type, which only has to carry [latitude],
    [longitude] and [radius]. *)
Definition getContainingGeofences (pointLat pointLon : float) (geofences : list T) : list T :=
  List.filter (fun geofence =>
    isInsideGeofence pointLat pointLon
      (latitude_of geofence) (longitude_of geofence) (radius_of geofence)) geofences.
End Containing.

(** ** Middleware and replies *)

(** What a management route answers. *)
Module Named.
Record t := {
  event : GeofenceEvent.t;
  childName : string;
}.
End Named.

Inductive Reply :=
  | reply_geofence (status : Z) (message : option string) (geofence : Geofence.t)
  | reply_message (status : Z) (message : string)
  | reply_events (status : Z) (events : list Named.t)
  | reply_error (status : Z) (error : string)
  | reply_next (status : Z) (message : string).   (* [next(new AppError(message, status))] *)

Definition reply_status (r : Reply) : Z :=
  match r with
  | reply_geofence status _ _ => status
  | reply_message status _ => status
  | reply_events status _ => status
  | reply_error status _ => status
  | reply_next status _ => status
  end.

(** [parentOnly]: [None] stands for [next()]. *)
Definition parentOnly (user : User.t) : option Reply :=
  match User.role user with
  | User.parent => None
  | User.child => Some (reply_next 403 "Parent access required")
  end.

(** A route guarded by [parentOnly]. *)
Definition guarded (user : User.t) (handler : M Reply) : M Reply :=
  match parentOnly user with
  | Some refusal => ret refusal
  | None => handler
  end.

(** ** More database access *)

Definition set_geofences (rows : list Geofence.t) (w : World) : World :=
  {| users := users w; geofences := rows;
     geofenceEvents := geofenceEvents w; journal := journal w;
     clock := clock w; ticks := ticks w;
     entropy := entropy w; drawn := drawn w |}.

(** [db.query.users.findFirst({ where })] *)
Definition findFirst_users (where_ : User.t -> bool) : M (option User.t) :=
  do! issue (SELECT tbl_users) in
  fun w => (head (List.filter where_ (users w)), w).

(** [db.query.geofences.findFirst({ where })] *)
Definition findFirst_geofences (where_ : Geofence.t -> bool) : M (option Geofence.t) :=
  do! issue (SELECT tbl_geofences) in
  fun w => (head (List.filter where_ (geofences w)), w).

(** [db.insert(geofences).values(row)].  The handler supplies neither
    [createdAt] nor [updatedAt], so the query takes each from the column's
    [$defaultFn(() => new Date())] of [src/db/schema.ts].  [id] is the
    primary key of the table: inserting an id that is already there throws,
    and the row is not stored; the result says whether the insert went
    through. *)
Definition insert_geofences (row : Geofence.t) : M bool :=
  let! createdAt := new_Date in
  let! updatedAt := new_Date in
  do! issue (INSERT tbl_geofences) in
  fun w =>
    if existsb (fun g => String.eqb (Geofence.id g) (Geofence.id row)) (geofences w)
    then (false, w)
    else (true, set_geofences (geofences w ++ [row]) w).

(** [db.update(geofences).set(updates).where(...)] *)
Definition update_geofences (where_ : Geofence.t -> bool) (set : Geofence.t -> Geofence.t)
    : M unit :=
  do! issue (UPDATE tbl_geofences) in
  fun w => (tt, set_geofences (map (fun g => if where_ g then set g else g) (geofences w)) w).

(** [db.delete(geofences).where(...)] *)
Definition delete_geofences (where_ : Geofence.t -> bool) : M unit :=
  do! issue (DELETE tbl_geofences) in
  fun w => (tt, set_geofences (List.filter (fun g => negb (where_ g)) (geofences w)) w).

(** [db.delete(geofenceEvents).where(...)] *)
Definition delete_geofenceEvents (where_ : GeofenceEvent.t -> bool) : M unit :=
  do! issue (DELETE tbl_geofenceEvents) in
  fun w =>
    (tt, set_geofenceEvents (List.filter (fun e => negb (where_ e)) (geofenceEvents w)) w).

(** ** [POST /]: create a geofence *)

(** The validated request body; [icon] and [color] go with the columns that
    are left out. *)
Module CreateBody.
Record t := {
  name : string;
  latitude : float;
  longitude : float;
  radius : float;
  childId : option string;
  notifyEnter : option bool;
  notifyExit : option bool;
  schedule : option Schedule;
}.
End CreateBody.

Definition newGeofence (user : User.t) (geofenceId : string) (body : CreateBody.t)
    : Geofence.t :=
  {| Geofence.id := geofenceId;
     Geofence.userId := User.id user;
     Geofence.familyId := default "" (User.familyId user);
     Geofence.childId := stored_childId (CreateBody.childId body);
     Geofence.name := CreateBody.name body;
     Geofence.latitude := CreateBody.latitude body;
     Geofence.longitude := CreateBody.longitude body;
     Geofence.radius := CreateBody.radius body;
     Geofence.notifyEnter := Some (default true (CreateBody.notifyEnter body));
     Geofence.notifyExit := Some (default true (CreateBody.notifyExit body));
     Geofence.isActive := Some true;
     Geofence.schedule := CreateBody.schedule body |}.

(** The last part of the handler: draw an id, insert, answer.  A throwing
    insert ends in the [catch] block. *)
Definition storeGeofence (user : User.t) (body : CreateBody.t) : M Reply :=
  let! geofenceId := generateId in
  let row := newGeofence user geofenceId body in
  let! stored := insert_geofences row in
  if stored
  then ret (reply_geofence 201 (Some "Geofence created successfully") row)
  else ret (reply_error 500 "Failed to create geofence").

(** [eq(users.id, req.body.childId)] and [eq(users.parentId, user.id)] *)
Definition is_child_of (user : User.t) (childId : option string) (u : User.t) : bool :=
  bool_decide (Some (User.id u) = childId) &&
  bool_decide (User.parentId u = Some (User.id user)).

Definition createGeofence (user : User.t) (body : CreateBody.t) : M Reply :=
  if negb (truthy_str (User.familyId user)) then
    ret (reply_error 400 "You must be in a family to create geofences")
  else if truthy_str (CreateBody.childId body) then
    let! child := findFirst_users (is_child_of user (CreateBody.childId body)) in
    match child with
    | None => ret (reply_error 403 "Child not found or not your child")
    | Some _ => storeGeofence user body
    end
  else storeGeofence user body.

Definition post_geofence (user : User.t) (body : CreateBody.t) : M Reply :=
  guarded user (createGeofence user body).

(** ** [GET /:id] *)

Definition get_geofence (user : User.t) (id : string) : M Reply :=
  let! geofence := findFirst_geofences (fun g => String.eqb (Geofence.id g) id) in
  match geofence with
  | None => ret (reply_error 404 "Geofence not found")
  | Some geofence =>
      if negb (bool_decide (Some (Geofence.familyId geofence) = User.familyId user))
      then ret (reply_error 403 "Access denied")
      else ret (reply_geofence 200 None geofence)
  end.

(** ** [PATCH /:id] *)

(** The validated request body: a field is [None] when the request does
    not carry it ([undefined]); [schedule] may be sent as [null]. *)
Module PatchBody.
Record t := {
  name : option string;
  latitude : option float;
  longitude : option float;
  radius : option float;
  isActive : option bool;
  notifyEnter : option bool;
  notifyExit : option bool;
  schedule : option (option Schedule);
}.
End PatchBody.

(** [{ ...geofence, ...updates }], which is also what [set(updates)] makes
    of the stored row.  The columns [icon], [color] and [updatedAt] are not
    among the fields of [Geofence.t]. *)
Definition apply_updates (body : PatchBody.t) (g : Geofence.t) : Geofence.t :=
  {| Geofence.id := Geofence.id g;
     Geofence.userId := Geofence.userId g;
     Geofence.familyId := Geofence.familyId g;
     Geofence.childId := Geofence.childId g;
     Geofence.name := default (Geofence.name g) (PatchBody.name body);
     Geofence.latitude := default (Geofence.latitude g) (PatchBody.latitude body);
     Geofence.longitude := default (Geofence.longitude g) (PatchBody.longitude body);
     Geofence.radius := default (Geofence.radius g) (PatchBody.radius body);
     Geofence.notifyEnter :=
       match PatchBody.notifyEnter body with Some b => Some b | None => Geofence.notifyEnter g end;
     Geofence.notifyExit :=
       match PatchBody.notifyExit body with Some b => Some b | None => Geofence.notifyExit g end;
     Geofence.isActive :=
       match PatchBody.isActive body with Some b => Some b | None => Geofence.isActive g end;
     Geofence.schedule := default (Geofence.schedule g) (PatchBody.schedule body) |}.

Definition updateGeofence (user : User.t) (id : string) (body : PatchBody.t) : M Reply :=
  let! geofence := findFirst_geofences (fun g => String.eqb (Geofence.id g) id) in
  match geofence with
  | None => ret (reply_error 404 "Geofence not found")
  | Some geofence =>
      if negb (String.eqb (Geofence.userId geofence) (User.id user))
      then ret (reply_error 403 "Only the creator can modify this geofence")
      else
        (* updates.updatedAt = new Date() *)
        let! updatedAt := new_Date in
        do! update_geofences (fun g => String.eqb (Geofence.id g) id) (apply_updates body) in
        ret (reply_geofence 200 (Some "Geofence updated successfully")
               (apply_updates body geofence))
  end.

Definition patch_geofence (user : User.t) (id : string) (body : PatchBody.t) : M Reply :=
  guarded user (updateGeofence user id body).

(** ** [DELETE /:id] *)

Definition deleteGeofence (user : User.t) (id : string) : M Reply :=
  let! geofence := findFirst_geofences (fun g => String.eqb (Geofence.id g) id) in
  match geofence with
  | None => ret (reply_error 404 "Geofence not found")
  | Some geofence =>
      if negb (String.eqb (Geofence.userId geofence) (User.id user))
      then ret (reply_error 403 "Only the creator can delete this geofence")
      else
        do! delete_geofenceEvents (fun e => String.eqb (GeofenceEvent.geofenceId e) id) in
        do! delete_geofences (fun g => String.eqb (Geofence.id g) id) in
        ret (reply_message 200 "Geofence deleted successfully")
  end.

Definition delete_geofence (user : User.t) (id : string) : M Reply :=
  guarded user (deleteGeofence user id).

(** ** [GET /:id/events] *)

(** [parseInt(req.query.limit) || 50]: an absent limit parses to [NaN]. *)
Definition events_limit (limit : option nat) : nat :=
  match limit with
  | Some 0 | None => 50
  | Some n => n
  end.

(** The callbacks of [events.map(async ...)] each issue their query when
    they are called, in order. *)
Fixpoint withNames (events : list GeofenceEvent.t) : M (list Named.t) :=
  match events with
  | [] => ret []
  | event :: rest =>
      let! child :=
        findFirst_users (fun u => String.eqb (User.id u) (GeofenceEvent.childId event)) in
      let childName :=
        match child with
        | Some u => if String.eqb (User.displayName u) "" then "Unknown" else User.displayName u
        | None => "Unknown"
        end in
      let! rest' := withNames rest in
      ret ({| Named.event := event; Named.childName := childName |} :: rest')
  end.

Definition get_geofence_events (user : User.t) (id : string) (limit : option nat) : M Reply :=
  let limit := events_limit limit in
  let! geofence := findFirst_geofences (fun g => String.eqb (Geofence.id g) id) in
  match geofence with
  | None => ret (reply_error 404 "Geofence not found")
  | Some geofence =>
      if negb (bool_decide (Some (Geofence.familyId geofence) = User.familyId user))
      then ret (reply_error 403 "Access denied")
      else
        let! events :=
          findMany_geofenceEvents
            (fun e => String.eqb (GeofenceEvent.geofenceId e) id) limit in
        let! eventsWithNames := withNames events in
        ret (reply_events 200 eventsWithNames)
  end.

(** ** Invariants of the store *)

(** Every event row is about a geofence that is in the table. *)
Definition events_reference (w : World) : Prop :=
  forall e, In e (geofenceEvents w) ->
    exists g, In g (geofences w) /\ Geofence.id g = GeofenceEvent.geofenceId e.

Definition well_formed (w : World) : Prop :=
  primary_key w /\ childIds_stored w /\ events_reference w.

(** A window that closes at 06:00 after opening at 22:00. *)
Definition night_hours : Schedule :=
  {| days := [0; 1; 2; 3; 4; 5; 6]%Z; startTime := "22:00"; endTime := "06:00" |}.

(** Office hours with the opening time written without its leading zero. *)
Definition unpadded_hours : Schedule :=
  {| days := [1; 2; 3; 4; 5]%Z; startTime := "9:00"; endTime := "17:00" |}.

(** The first character of a time of day is at most "2". *)
Definition starts_low (h : Z) : bool :=
  match padStart 2 "0"%char (String_of h) with
  | String d _ => negb (Ascii.ltb "2"%char d)
  | EmptyString => false
  end.

(** ** A parent of the example family *)

Module Manage.
Definition mum : User.t :=
  {| User.id := "mum"; User.email := "mum@example.org"; User.displayName := "Mum";
     User.role := User.parent; User.avatar := None; User.familyId := Some "fam";
     User.parentId := None; User.pairingCode := Some "ABCD-EFGH" |}.

(** A parent who has not joined a family yet. *)
Definition newcomer : User.t :=
  {| User.id := "dad"; User.email := "dad@example.org"; User.displayName := "Dad";
     User.role := User.parent; User.avatar := None; User.familyId := None;
     User.parentId := None; User.pairingCode := Some "JKLM-NPQR" |}.

(** Another parent of the same family. *)
Definition aunt : User.t :=
  {| User.id := "aunt"; User.email := "aunt@example.org"; User.displayName := "Aunt";
     User.role := User.parent; User.avatar := None; User.familyId := Some "fam";
     User.parentId := None; User.pairingCode := None |}.

Definition home_body (childId : option string) : CreateBody.t :=
  {| CreateBody.name := "Home"; CreateBody.latitude := 40%float;
     CreateBody.longitude := (-74)%float; CreateBody.radius := 100%float;
     CreateBody.childId := childId;
     CreateBody.notifyEnter := None; CreateBody.notifyExit := None;
     CreateBody.schedule := None |}.

Definition no_change : PatchBody.t :=
  {| PatchBody.name := None; PatchBody.latitude := None; PatchBody.longitude := None;
     PatchBody.radius := None; PatchBody.isActive := None;
     PatchBody.notifyEnter := None; PatchBody.notifyExit := None;
     PatchBody.schedule := None |}.

Definition switch_off : PatchBody.t :=
  {| PatchBody.name := None; PatchBody.latitude := None; PatchBody.longitude := None;
     PatchBody.radius := None; PatchBody.isActive := Some false;
     PatchBody.notifyEnter := None; PatchBody.notifyExit := None;
     PatchBody.schedule := None |}.

(** The example family with its users in the user table, the kid's parent
    being mum. *)
Definition world (directory : list Geofence.t) (log : list GeofenceEvent.t) : World :=
  {| users := [mum; aunt; newcomer; Example.kid; Example.loner];
     geofences := directory; geofenceEvents := log;
     journal := []; clock := Example.wall_clock; ticks := 0;
     entropy := fun i => N.of_nat (7 * i + 3); drawn := 0 |}.
End Manage.


(** ** Computations that do not read the event log

    [m] may append rows to the event table, but what it returns, the rows
    it appends and what it does to the rest of the world are the same
    whatever the table holds when it starts. *)
Definition events_blind {A} (m : M A) : Prop :=
  forall w, exists rows,
    geofenceEvents (m w).2 = geofenceEvents w ++ rows /\
    forall log, m (set_geofenceEvents log w)
                = ((m w).1, set_geofenceEvents (log ++ rows) (m w).2).
(** * Properties *)

(** ** The spatial predicate *)

(** IEEE-754 comparison of the specification floats is antisymmetric. *)
Lemma SFcompare_swap (x y : spec_float) :
  SFcompare y x = option_map CompOpp (SFcompare x y).
Proof.
  destruct x as [sx| sx| |sx mx ex], y as [sy| sy| |sy my ey]; simpl;
    try reflexivity;
    try (destruct sx; reflexivity);
    try (destruct sy; reflexivity);
    try (destruct sx, sy; reflexivity).
  f_equal.
  pose proof (Z.compare_antisym ey ex) as Ez.
  pose proof (Pos.compare_cont_antisym mx my Eq) as Ep. simpl in Ep.
  change PosDef.Pos.compare_cont with Pos.compare_cont.
  rewrite Ez, <- Ep.
  destruct sx, sy; simpl; try reflexivity;
    destruct (ey ?= ex)%Z; simpl; try reflexivity.
Qed.

(** [a <= b] is [a < b || a == b], for every pair of doubles. *)
Lemma float_leb_ltb_eqb (a b : float) :
  (a <=? b)%float = ((a <? b)%float || (a =? b)%float).
Proof.
  rewrite FloatAxioms.leb_spec, FloatAxioms.ltb_spec, FloatAxioms.eqb_spec.
  unfold SFleb, SFltb, SFeqb.
  destruct (SFcompare _ _) as [[]|]; reflexivity.
Qed.

(** [b < a] excludes [a <= b]. *)
Lemma float_ltb_not_leb (a b : float) :
  (b <? a)%float = true -> (a <=? b)%float = false.
Proof.
  rewrite FloatAxioms.leb_spec, FloatAxioms.ltb_spec. unfold SFleb, SFltb.
  rewrite (SFcompare_swap (Prim2SF a) (Prim2SF b)).
  destruct (SFcompare (Prim2SF a) (Prim2SF b)) as [[]|]; simpl; congruence.
Qed.

Section Boundary.
Context `{HostMath}.

(** C4. [isInsideGeofence] is the closed disk: it is false when the
    haversine distance is strictly greater than the radius, true when the
    distance equals the radius, and in general true exactly when the
    distance is less than or equal to the radius. *)
Theorem isInsideGeofence_closed_disk (pointLat pointLon geofenceLat geofenceLon radiusMeters : float) :
  let distance := calculateDistance pointLat pointLon geofenceLat geofenceLon in
  ((radiusMeters <? distance)%float = true ->
     isInsideGeofence pointLat pointLon geofenceLat geofenceLon radiusMeters = false) /\
  ((distance =? radiusMeters)%float = true ->
     isInsideGeofence pointLat pointLon geofenceLat geofenceLon radiusMeters = true) /\
  isInsideGeofence pointLat pointLon geofenceLat geofenceLon radiusMeters
    = ((distance <? radiusMeters)%float || (distance =? radiusMeters)%float).
Proof.
  intros distance. unfold isInsideGeofence. fold distance.
  split; [|split].
  - apply float_ltb_not_leb.
  - intros E. rewrite float_leb_ltb_eqb, E. apply orb_true_r.
  - apply float_leb_ltb_eqb.
Qed.
End Boundary.

(** The boundary at work: with the reference numerics, a zone whose radius
    is exactly the distance to a point half a degree north contains that
    point, and a 100 m zone does not. *)
Lemma isInsideGeofence_closed_disk_witness :
  @isInsideGeofence RefMath.ref 40.5 (-74) 40 (-74) 100 = false /\
  @isInsideGeofence RefMath.ref 40.5 (-74) 40 (-74)
    (@calculateDistance RefMath.ref 40.5 (-74) 40 (-74)) = true.
Proof.
  split.
  - destruct (@isInsideGeofence_closed_disk RefMath.ref 40.5 (-74) 40 (-74) 100)
      as (Hfar & _ & _).
    apply Hfar. vm_compute. reflexivity.
  - destruct (@isInsideGeofence_closed_disk RefMath.ref 40.5 (-74) 40 (-74)
                (@calculateDistance RefMath.ref 40.5 (-74) 40 (-74)))
      as (_ & Hedge & _).
    apply Hedge. vm_compute. reflexivity.
Defined.

(** ** The host primitives leave the tables alone *)

Lemma activeGeofences_run (applicable : list Geofence.t) (w : World) :
  exists n,
    ticks w <= n /\
    (activeGeofences applicable w).2 = set_ticks n w /\
    (forall g, In g (activeGeofences applicable w).1 ->
       In g applicable /\
       match Geofence.schedule g with
       | None => True
       | Some s => exists k, ticks w <= k /\ scheduleActiveAt s (clock w k) = true
       end).
Proof.
  revert w. induction applicable as [|g rest IH]; intros w.
  - exists (ticks w). split; [lia|]. split; [by destruct w|].
    intros g [].
  - simpl. unfold bind.
    destruct (isGeofenceActiveNow (Geofence.schedule g) w) as [keep w1] eqn:E1.
    destruct (IH w1) as (n & Hn & Hw & Hin).
    destruct (activeGeofences rest w1) as [rest' w2] eqn:E2. simpl in *.
    assert (Hw1 : exists n1, ticks w <= n1 /\ w1 = set_ticks n1 w /\
              (keep = true -> match Geofence.schedule g with
                 | None => True
                 | Some s => exists k, ticks w <= k /\ scheduleActiveAt s (clock w k) = true
                 end)).
    { unfold isGeofenceActiveNow in E1. destruct (Geofence.schedule g) as [s|].
      - unfold bind, new_Date, ret in E1. injection E1 as <- <-.
        exists (S (ticks w)). split; [lia|]. split; [done|].
        intros Hk. exists (ticks w). split; [lia|done].
      - unfold ret in E1. injection E1 as <- <-.
        exists (ticks w). split; [lia|]. split; [by destruct w|done]. }
    destruct Hw1 as (n1 & Hn1 & -> & Hkeep). simpl in *.
    exists n. split; [lia|]. split; [by rewrite Hw|].
    intros g' Hg'.
    assert (Hrest : In g' rest' -> (g = g' \/ In g' rest) /\
              match Geofence.schedule g' with
              | None => True
              | Some s => exists k, ticks w <= k /\ scheduleActiveAt s (clock w k) = true
              end).
    { intros Hr. destruct (Hin g' Hr) as [Hr1 Hr2]. split; [by right|].
      destruct (Geofence.schedule g'); [|done].
      destruct Hr2 as (k & Hk & Hs). exists k. split; [lia|done]. }
    destruct keep; [|by apply Hrest].
    destruct Hg' as [<-|Hr]; [|by apply Hrest].
    split; [by left|by apply Hkeep].
Qed.

Lemma filter_map_NoDup {A B} (f : A -> B) (p : A -> bool) (l : list A) :
  List.NoDup (map f l) -> List.NoDup (map f (List.filter p l)).
Proof.
  induction l as [|a l IH]; simpl; intros Hnd; [constructor|].
  apply NoDup_cons_iff in Hnd as [Hnin Hnd'].
  destruct (p a); simpl; [|by apply IH].
  apply NoDup_cons_iff. split; [|by apply IH].
  intros Hin. apply Hnin. apply in_map_iff in Hin as (x & Hx & Hxin).
  apply in_map_iff. exists x. split; [done|].
  apply filter_In in Hxin. tauto.
Qed.

Lemma activeGeofences_NoDup {B} (f : Geofence.t -> B) (applicable : list Geofence.t) (w : World) :
  List.NoDup (map f applicable) -> List.NoDup (map f (activeGeofences applicable w).1).
Proof.
  revert w. induction applicable as [|g rest IH]; intros w Hnd; [constructor|].
  simpl. unfold bind.
  destruct (isGeofenceActiveNow (Geofence.schedule g) w) as [keep w1] eqn:E1.
  simpl in Hnd. apply NoDup_cons_iff in Hnd as [Hnin Hnd'].
  specialize (IH w1 Hnd').
  destruct (activeGeofences_run rest w1) as (n & _ & _ & Hin).
  destruct (activeGeofences rest w1) as [rest' w2]. simpl in *.
  destruct keep; [|done].
  simpl. apply NoDup_cons_iff. split; [|done].
  intros Hi. apply Hnin. apply in_map_iff in Hi as (x & Hx & Hxin).
  apply in_map_iff. exists x. split; [done|]. by apply Hin.
Qed.

(** ** The loop *)

Section Loop.
Context `{HostMath}.

Lemma appended_refl (w : World) : appended w w [].
Proof.
  unfold appended. simpl. rewrite !app_nil_r. repeat split; lia || done.
Qed.

Lemma appended_trans (w1 w2 w3 : World) (r1 r2 : list GeofenceEvent.t) :
  appended w1 w2 r1 -> appended w2 w3 r2 -> appended w1 w3 (r1 ++ r2).
Proof.
  unfold appended.
  intros (Hu1 & Hg1 & He1 & Hc1 & Ht1 & Hn1 & Hj1) (Hu2 & Hg2 & He2 & Hc2 & Ht2 & Hn2 & Hj2).
  repeat split; try congruence; try lia.
  - rewrite He2, He1. by rewrite app_assoc.
  - rewrite Hj2, Hj1. rewrite length_app, repeat_app. by rewrite app_assoc.
Qed.

Lemma emitted_as_mono (user : User.t) (latitude longitude : float) (w w' : World)
    (d : Geofence.t * EventType) (p : Transition.t * GeofenceEvent.t) :
  clock w' = clock w -> ticks w <= ticks w' ->
  emitted_as user latitude longitude w' d p -> emitted_as user latitude longitude w d p.
Proof.
  intros Hc Ht (H1 & H2 & H3 & (j & Hj & Hts) & H5).
  repeat split; try tauto.
  exists j. split; [lia|congruence].
Qed.

Lemma emit_run (user : User.t) (latitude longitude : float) (g : Geofence.t)
    (ty : EventType) (evs : list Transition.t) (w : World) :
  exists p w',
    emit user latitude longitude g ty evs w = (evs ++ [p.1], w') /\
    appended w w' [p.2] /\
    emitted_as user latitude longitude w (g, ty) p.
Proof.
  unfold emit, bind, generateId, bind, randomBytes, new_Date, insert_geofenceEvents,
    bind, issue, ret. simpl.
  eexists (_, _), _. split; [reflexivity|]. simpl. split.
  - unfold appended. simpl. repeat split; lia || done.
  - unfold emitted_as. simpl. repeat split; try done.
    exists (ticks w). split; [lia|done].
Qed.

Lemma checkGeofence_run (user : User.t) (latitude longitude : float)
    (m : gmap string EventType) (acc : list Transition.t * list string)
    (g : Geofence.t) (w : World) :
  exists ps w',
    checkGeofence user latitude longitude m acc g w
      = ((acc.1 ++ map fst ps, acc.2 ++ zonesOf latitude longitude [g]), w') /\
    appended w w' (map snd ps) /\
    Forall2 (emitted_as user latitude longitude w) (decisions latitude longitude m [g]) ps.
Proof.
  destruct acc as [evs zones]. unfold checkGeofence, decisions, zonesOf, emitted. simpl.
  destruct (isInside latitude longitude g); simpl.
  - destruct (negb (bool_decide (m !! Geofence.id g = Some enter)) &&
              truthy_bool (Geofence.notifyEnter g)); simpl.
    + destruct (emit_run user latitude longitude g enter evs w) as (p & w' & He & Ha & Hp).
      exists [p], w'. unfold bind. rewrite He. simpl. split; [done|]. split; [done|].
      by constructor.
    + exists [], w. unfold ret. simpl. rewrite !app_nil_r.
      split; [done|]. split; [apply appended_refl|constructor].
  - destruct (bool_decide (m !! Geofence.id g = Some enter) &&
              truthy_bool (Geofence.notifyExit g)); simpl.
    + destruct (emit_run user latitude longitude g exit evs w) as (p & w' & He & Ha & Hp).
      exists [p], w'. unfold bind. rewrite He. simpl. rewrite app_nil_r. split; [done|]. split; [done|].
      by constructor.
    + exists [], w. unfold ret. simpl. rewrite !app_nil_r.
      split; [done|]. split; [apply appended_refl|constructor].
Qed.

Lemma decisions_cons (latitude longitude : float) (m : gmap string EventType)
    (g : Geofence.t) (rest : list Geofence.t) :
  decisions latitude longitude m (g :: rest)
    = decisions latitude longitude m [g] ++ decisions latitude longitude m rest.
Proof. unfold decisions. simpl. by rewrite app_nil_r. Qed.

Lemma zonesOf_cons (latitude longitude : float) (g : Geofence.t) (rest : list Geofence.t) :
  zonesOf latitude longitude (g :: rest)
    = zonesOf latitude longitude [g] ++ zonesOf latitude longitude rest.
Proof. unfold zonesOf. simpl. by destruct (isInside latitude longitude g). Qed.

Lemma checkAll_run (user : User.t) (latitude longitude : float)
    (m : gmap string EventType) (active : list Geofence.t)
    (acc : list Transition.t * list string) (w : World) :
  exists ps w',
    checkAll user latitude longitude m active acc w
      = ((acc.1 ++ map fst ps, acc.2 ++ zonesOf latitude longitude active), w') /\
    appended w w' (map snd ps) /\
    Forall2 (emitted_as user latitude longitude w) (decisions latitude longitude m active) ps.
Proof.
  revert acc w. induction active as [|g rest IH]; intros acc w.
  - exists [], w. simpl. unfold ret, zonesOf. simpl. rewrite !app_nil_r.
    destruct acc. split; [done|]. split; [apply appended_refl|constructor].
  - cbn [checkAll]. unfold bind.
    destruct (checkGeofence_run user latitude longitude m acc g w)
      as (ps1 & w1 & E1 & A1 & F1).
    rewrite E1.
    destruct (IH (acc.1 ++ map fst ps1, acc.2 ++ zonesOf latitude longitude [g]) w1)
      as (ps2 & w2 & E2 & A2 & F2).
    exists (ps1 ++ ps2), w2. rewrite E2. cbn [fst snd]. split; [|split].
    + by rewrite !map_app, <- !app_assoc, <- zonesOf_cons.
    + rewrite map_app. by eapply appended_trans.
    + rewrite decisions_cons.
      apply Forall2_app; [done|].
      eapply Forall2_impl; [exact F2|].
      intros d p. apply emitted_as_mono; apply A1.
Qed.
End Loop.

(** ** The handler, step by step *)

Section Handler.
Context `{HostMath}.

Lemma selectGeofences_run (user : User.t) (fid : string) (w : World) :
  exists n,
    ticks w <= n /\
    (selectGeofences user fid w).2
      = set_ticks n (set_journal (journal w ++ [SELECT tbl_geofences]) w) /\
    (selectGeofences user fid w).1
      = (activeGeofences (candidates user fid w)
           (set_journal (journal w ++ [SELECT tbl_geofences]) w)).1 /\
    (forall g, In g (selectGeofences user fid w).1 ->
       In g (geofences w) /\
       Geofence.familyId g = fid /\
       Geofence.isActive g = Some true /\
       applies_to user g = true /\
       match Geofence.schedule g with
       | None => True
       | Some s => exists k, ticks w <= k /\ scheduleActiveAt s (clock w k) = true
       end).
Proof.
  unfold selectGeofences, findMany_geofences, bind, issue. simpl.
  fold (candidates user fid w).
  set (w0 := set_journal (journal w ++ [SELECT tbl_geofences]) w).
  destruct (activeGeofences_run (candidates user fid w) w0) as (n & Hn & Hw & Hin).
  exists n. split; [done|]. split; [done|]. split; [done|].
  intros g Hg. destruct (Hin g Hg) as [Hc Hs].
  unfold candidates, applicableGeofences in Hc.
  apply filter_In in Hc as [Hc Happ]. apply filter_In in Hc as [Hc Hf].
  apply andb_prop in Hf as [Hfam Hact].
  apply String.eqb_eq in Hfam. apply bool_decide_eq_true in Hact.
  done.
Qed.

Lemma check_run (user : User.t) (latitude longitude : float) (w : World) (fid : string) :
  User.familyId user = Some fid -> fid <> "" ->
  let active := (selectGeofences user fid w).1 in
  let lastStates := lastStateMap (lastEventsOf user (length active) w) in
  exists ps w',
    check user latitude longitude w
      = (res_json 200 {| events := map fst ps;
                         currentZones := zonesOf latitude longitude active |}, w') /\
    users w' = users w /\
    geofences w' = geofences w /\
    geofenceEvents w' = geofenceEvents w ++ map snd ps /\
    clock w' = clock w /\
    ticks w <= ticks w' /\
    entropy w' = entropy w /\
    journal w' = journal w ++ [SELECT tbl_geofences; SELECT tbl_geofenceEvents]
                   ++ repeat (INSERT tbl_geofenceEvents) (length ps) /\
    Forall2 (emitted_as user latitude longitude w)
      (decisions latitude longitude lastStates active) ps.
Proof.
  intros Hfam Hne active lastStates.
  unfold check. rewrite Hfam. simpl.
  assert (String.eqb fid "" = false) as -> by by apply String.eqb_neq.
  simpl. unfold bind at 1.
  destruct (selectGeofences_run user fid w) as (n & Hn & Hw1 & _ & _).
  destruct (selectGeofences user fid w) as [act w1] eqn:Esel.
  simpl in Hw1, active. subst active.
  unfold bind at 1, findMany_geofenceEvents, bind at 1, issue.
  set (w2 := set_journal (journal w1 ++ [SELECT tbl_geofenceEvents]) w1).
  assert (lastEventsOf user (length act) w
          = firstn (length act)
              (orderBy_desc_timestamp
                 (List.filter (fun e => String.eqb (GeofenceEvent.childId e) (User.id user))
                    (geofenceEvents w2)))) as Hlast.
  { unfold lastEventsOf, w2. by rewrite Hw1. }
  rewrite <- Hlast. fold lastStates.
  destruct (checkAll_run user latitude longitude lastStates act ([], []) w2)
    as (ps & w' & E & A & F).
  exists ps, w'. unfold bind. rewrite E. simpl.
  destruct A as (Au & Ag & Ae & Ac & At & An & Aj).
  subst w2. rewrite Hw1 in *. simpl in *.
  split; [done|]. split; [done|]. split; [done|]. split; [done|].
  split; [done|]. split; [lia|]. split; [done|]. split.
  - rewrite Aj, length_map. by rewrite <- !app_assoc.
  - eapply Forall2_impl; [exact F|].
    intros d p. by apply emitted_as_mono.
Qed.
End Handler.

(** ** Which geofences are evaluated *)

Lemma activeGeofences_complete (applicable : list Geofence.t) (w : World) (g : Geofence.t) :
  In g applicable -> passesSchedule w g -> In g (activeGeofences applicable w).1.
Proof.
  revert w. induction applicable as [|a rest IH]; intros w Hin Hpass; [done|].
  simpl. unfold bind.
  destruct (isGeofenceActiveNow (Geofence.schedule a) w) as [keep w1] eqn:E1.
  assert (Hw1 : clock w1 = clock w /\ ticks w <= ticks w1 /\
                (a = g -> keep = true)).
  { unfold isGeofenceActiveNow in E1. destruct (Geofence.schedule a) as [s|] eqn:Es.
    - unfold bind, new_Date, ret in E1. injection E1 as <- <-. simpl.
      split; [done|]. split; [lia|]. intros ->.
      unfold passesSchedule in Hpass. rewrite Es in Hpass. by apply Hpass.
    - unfold ret in E1. by injection E1 as <- <-. }
  destruct Hw1 as (Hc & Ht & Hkeep).
  assert (Hpass1 : passesSchedule w1 g).
  { unfold passesSchedule in *. destruct (Geofence.schedule g); [|done].
    intros k Hk. rewrite Hc. apply Hpass. lia. }
  specialize (IH w1).
  destruct (activeGeofences rest w1) as [rest' w2]. simpl in *.
  destruct Hin as [Heq|Hin].
  - rewrite (Hkeep Heq). left. done.
  - destruct keep; [right|]; by apply IH.
Qed.

Lemma activeGeofences_excludes (applicable : list Geofence.t) (w : World) (g : Geofence.t) :
  failsSchedule w g -> ~ In g (activeGeofences applicable w).1.
Proof.
  intros (s & Hs & Hfail) Hin.
  destruct (activeGeofences_run applicable w) as (n & _ & _ & Hall).
  destruct (Hall g Hin) as [_ Hk]. rewrite Hs in Hk.
  destruct Hk as (k & Hk & Hact). rewrite Hfail in Hact; [done|lia].
Qed.

Lemma filter_none {A} (f : A -> bool) (l : list A) :
  (forall x, In x l -> f x = false) -> List.filter f l = [].
Proof.
  induction l as [|a l IH]; simpl; intros Hall; [done|].
  rewrite (Hall a) by by left. apply IH. intros x Hx. apply Hall. by right.
Qed.

Lemma NoDup_map_eq {A B} (f : A -> B) (l : list A) (x y : A) :
  List.NoDup (map f l) -> In x l -> In y l -> f x = f y -> x = y.
Proof.
  induction l as [|a l IH]; simpl; intros Hnd Hx Hy Hf; [done|].
  apply NoDup_cons_iff in Hnd as [Hnin Hnd].
  destruct Hx as [->|Hx], Hy as [->|Hy]; [done| | |by apply IH].
  - exfalso. apply Hnin. rewrite Hf. by apply in_map.
  - exfalso. apply Hnin. rewrite <- Hf. by apply in_map.
Qed.

Section Decisions.
Context `{HostMath}.

Lemma decisions_In (latitude longitude : float) (m : gmap string EventType)
    (active : list Geofence.t) (d : Geofence.t * EventType) :
  In d (decisions latitude longitude m active) <->
  In d.1 active /\
  emitted (m !! Geofence.id d.1) (isInside latitude longitude d.1) d.1 = Some d.2.
Proof.
  unfold decisions. rewrite in_flat_map. destruct d as [g ty]. simpl. split.
  - intros (a & Ha & Hd).
    destruct (emitted _ _ a) as [ty'|] eqn:E; [|done].
    destruct Hd as [[= -> ->]|[]]. done.
  - intros [Hg He]. exists g. split; [done|]. rewrite He. by left.
Qed.

Lemma decisions_length (latitude longitude : float) (m : gmap string EventType)
    (active : list Geofence.t) :
  length (decisions latitude longitude m active) <= length active.
Proof.
  induction active as [|a rest IH]; [done|].
  rewrite decisions_cons, length_app. unfold decisions at 1. simpl.
  destruct (emitted _ _ a); simpl; lia.
Qed.

(** No decision is about an id that no evaluated geofence has. *)
Lemma decisions_absent (latitude longitude : float) (m : gmap string EventType)
    (active : list Geofence.t) (g : Geofence.t) :
  (forall a, In a active -> Geofence.id a <> Geofence.id g) ->
  List.filter (fun d => String.eqb (Geofence.id d.1) (Geofence.id g))
    (decisions latitude longitude m active) = [].
Proof.
  intros Hne. apply filter_none. intros d Hd. apply decisions_In in Hd as [Hd _].
  apply String.eqb_neq. by apply Hne.
Qed.
(** With distinct ids, the decisions about the geofence with the id of
    [g] are the decision about [g]. *)
Lemma decisions_for (latitude longitude : float) (m : gmap string EventType)
    (active : list Geofence.t) (g : Geofence.t) :
  List.NoDup (map Geofence.id active) -> In g active ->
  map snd (List.filter (fun d => String.eqb (Geofence.id d.1) (Geofence.id g))
             (decisions latitude longitude m active))
    = match emitted (m !! Geofence.id g) (isInside latitude longitude g) g with
      | Some ty => [ty]
      | None => []
      end.
Proof.
  intros Hnd Hin.
  induction active as [|a rest IH]; [done|].
  simpl in Hnd. apply NoDup_cons_iff in Hnd as [Hnin Hnd].
  rewrite decisions_cons, List.filter_app, map_app.
  destruct Hin as [->|Hin].
  - rewrite (decisions_absent latitude longitude m rest g).
    + rewrite app_nil_r. unfold decisions. simpl.
      destruct (emitted _ _ g); simpl; [|done].
      by rewrite String.eqb_refl.
    + intros a Ha Heq. apply Hnin. rewrite <- Heq. by apply in_map.
  - rewrite (IH Hnd Hin).
    rewrite (decisions_absent latitude longitude m [a] g); [done|].
    intros a' [<-|[]] Heq. apply Hnin. rewrite Heq. by apply in_map.
Qed.
End Decisions.

(** ** What a call reports and stores, geofence by geofence *)

Section Outcome.
Context `{HostMath}.

Lemma emitted_as_eventsFor (user : User.t) (latitude longitude : float) (w : World)
    (ds : list (Geofence.t * EventType)) (ps : list (Transition.t * GeofenceEvent.t))
    (x : string) :
  Forall2 (emitted_as user latitude longitude w) ds ps ->
  map Transition.eventType
      (List.filter (fun e => String.eqb (Transition.geofenceId e) x) (map fst ps))
    = map snd (List.filter (fun d => String.eqb (Geofence.id d.1) x) ds) /\
  map GeofenceEvent.eventType
      (List.filter (fun e => String.eqb (GeofenceEvent.geofenceId e) x) (map snd ps))
    = map snd (List.filter (fun d => String.eqb (Geofence.id d.1) x) ds).
Proof.
  induction 1 as [|d p ds ps Hdp _ [IH1 IH2]]; [done|].
  destruct Hdp as (Hid & _ & Hty & _ & Hrid & _ & Hrty & _).
  simpl. rewrite Hid, Hrid.
  destruct (String.eqb (Geofence.id d.1) x); simpl; by rewrite ?Hty, ?Hrty, IH1, IH2.
Qed.

Lemma check_outcome (user : User.t) (latitude longitude : float) (w : World) (fid : string) :
  User.familyId user = Some fid -> fid <> "" ->
  let active := (selectGeofences user fid w).1 in
  let lastStates := lastStateMap (lastEventsOf user (length active) w) in
  let r := check user latitude longitude w in
  status_of r.1 = 200%Z /\
  currentZones (body_of r.1) = zonesOf latitude longitude active /\
  forall g,
    eventsFor g r.1
      = map snd (List.filter (fun d => String.eqb (Geofence.id d.1) (Geofence.id g))
                   (decisions latitude longitude lastStates active)) /\
    rowsFor g w r.2 = eventsFor g r.1.
Proof.
  intros Hfam Hne active lastStates r.
  destruct (check_run user latitude longitude w fid Hfam Hne)
    as (ps & w' & E & _ & _ & He & _ & _ & _ & _ & F).
  subst r. rewrite E. simpl. split; [done|]. split; [done|].
  intros g.
  destruct (emitted_as_eventsFor user latitude longitude w _ ps (Geofence.id g) F)
    as [E1 E2].
  unfold eventsFor, rowsFor, newRows. simpl.
  rewrite He, skipn_app, skipn_all, Nat.sub_diag. simpl.
  rewrite E1. split; [done|]. exact E2.
Qed.

(** A geofence of the table that is not evaluated is reported and stored
    nowhere. *)
Lemma check_skips (user : User.t) (latitude longitude : float) (w : World) (fid : string)
    (g : Geofence.t) :
  User.familyId user = Some fid -> fid <> "" ->
  primary_key w -> In g (geofences w) ->
  ~ In g (selectGeofences user fid w).1 ->
  let r := check user latitude longitude w in
  eventsFor g r.1 = [] /\
  rowsFor g w r.2 = [] /\
  exists zs,
    currentZones (body_of r.1) = map Geofence.name zs /\
    ~ In g zs /\
    (forall z, In z zs -> In z (geofences w)) /\
    (unique_name w g -> ~ In (Geofence.name g) (currentZones (body_of r.1))).
Proof.
  intros Hfam Hne Hpk Hg Hout r.
  destruct (check_outcome user latitude longitude w fid Hfam Hne) as (_ & Hz & Hev).
  fold r in Hz, Hev.
  destruct (selectGeofences_run user fid w) as (n & _ & _ & _ & Hact).
  destruct (Hev g) as [Hev1 Hev2].
  assert (eventsFor g r.1 = []) as Hnone.
  { rewrite Hev1, decisions_absent; [done|].
    intros a Ha Heq. apply Hout.
    destruct (Hact a Ha) as (Hain & _).
    by rewrite <- (NoDup_map_eq Geofence.id (geofences w) a g Hpk Hain Hg Heq). }
  split; [done|]. split; [by rewrite Hev2|].
  exists (List.filter (isInside latitude longitude) (selectGeofences user fid w).1).
  split; [done|].
  assert (forall z, In z (List.filter (isInside latitude longitude) (selectGeofences user fid w).1)
            -> In z (selectGeofences user fid w).1) as Hsub.
  { intros z Hzin. apply filter_In in Hzin. tauto. }
  split; [by intros Hin; apply Hout, Hsub|].
  split; [by intros z Hzin; apply Hact, Hsub|].
  intros Huniq Hin. rewrite Hz in Hin. unfold zonesOf in Hin.
  apply in_map_iff in Hin as (z & Hname & Hzin).
  apply Hout. rewrite <- (Huniq z); [by apply Hsub|by apply Hact, Hsub|done].
Qed.

(** A geofence that is evaluated. *)
Lemma check_evaluates (user : User.t) (latitude longitude : float) (w : World) (fid : string)
    (g : Geofence.t) :
  User.familyId user = Some fid -> fid <> "" ->
  primary_key w ->
  In g (selectGeofences user fid w).1 ->
  let active := (selectGeofences user fid w).1 in
  let lastStates := lastStateMap (lastEventsOf user (length active) w) in
  let r := check user latitude longitude w in
  eventsFor g r.1
    = match emitted (lastStates !! Geofence.id g) (isInside latitude longitude g) g with
      | Some ty => [ty]
      | None => []
      end /\
  rowsFor g w r.2 = eventsFor g r.1 /\
  (isInside latitude longitude g = true -> In (Geofence.name g) (currentZones (body_of r.1))) /\
  (isInside latitude longitude g = false -> unique_name w g ->
     ~ In (Geofence.name g) (currentZones (body_of r.1))).
Proof.
  intros Hfam Hne Hpk Hg active lastStates r.
  destruct (check_outcome user latitude longitude w fid Hfam Hne) as (_ & Hz & Hev).
  fold r active lastStates in Hz, Hev.
  destruct (selectGeofences_run user fid w) as (n & _ & _ & Hsel & Hact).
  fold active in Hsel, Hact.
  assert (List.NoDup (map Geofence.id active)) as Hnd.
  { rewrite Hsel. apply activeGeofences_NoDup.
    unfold candidates, applicableGeofences. by do 2 apply filter_map_NoDup. }
  destruct (Hev g) as [Hev1 Hev2].
  split; [by rewrite Hev1, decisions_for|]. split; [done|].
  rewrite Hz. unfold zonesOf. split.
  - intros Hin. apply in_map. apply filter_In. done.
  - intros Hout Huniq Hin. apply in_map_iff in Hin as (z & Hname & Hzin).
    apply filter_In in Hzin as [Hzin Hzi].
    rewrite (Huniq z) in Hzi; [congruence|by apply Hact|done].
Qed.
Lemma selectGeofences_complete (user : User.t) (fid : string) (w : World) (g : Geofence.t) :
  In g (geofences w) -> Geofence.familyId g = fid -> Geofence.isActive g = Some true ->
  applies_to user g = true -> passesSchedule w g ->
  In g (selectGeofences user fid w).1.
Proof.
  intros Hin Hfam Hact Happ Hpass.
  destruct (selectGeofences_run user fid w) as (n & _ & _ & -> & _).
  apply activeGeofences_complete; [|done].
  unfold candidates, applicableGeofences.
  apply filter_In. split; [|done]. apply filter_In. split; [done|].
  apply andb_true_intro. split; [by apply String.eqb_eq|by apply bool_decide_eq_true].
Qed.

Lemma selectGeofences_excludes (user : User.t) (fid : string) (w : World) (g : Geofence.t) :
  failsSchedule w g -> ~ In g (selectGeofences user fid w).1.
Proof.
  intros Hfail.
  destruct (selectGeofences_run user fid w) as (n & _ & _ & -> & _).
  by apply activeGeofences_excludes.
Qed.
End Outcome.

(** ** Callers without a family *)

Section Frame.
Context `{HostMath}.

(** C8. A caller whose user record has a null [familyId] gets the success
    response [{events: [], currentZones: []}] and the world is left exactly
    as it was: no statement is issued (so no geofence is read), no row is
    appended, the clock and the entropy source are not consulted. *)
Theorem check_without_family (user : User.t) (latitude longitude : float) (w : World) :
  User.familyId user = None ->
  check user latitude longitude w
    = (res_json 200 {| events := []; currentZones := [] |}, w).
Proof.
  intros Hnone. unfold check. rewrite Hnone. reflexivity.
Qed.

(** ** Frame condition *)

(** The statements an evaluation may issue. *)
Lemma check_frame_cases (user : User.t) (latitude longitude : float) (w : World) :
  (check user latitude longitude w).2 = w \/
  exists fid, User.familyId user = Some fid /\ fid <> "".
Proof.
  unfold check. destruct (User.familyId user) as [fid|]; simpl; [|by left].
  destruct (String.eqb fid "") eqn:E; simpl; [by left|].
  right. exists fid. split; [done|]. by apply String.eqb_neq.
Qed.

End Frame.

Section Gating.
Context `{HostMath}.


(** C7. When child B asks, a geofence whose [childId] names another child
    A yields no event, no stored row and no entry of [currentZones], even
    in B's own family; and every geofence that is evaluated has a null
    [childId] or B's id.  A stored non-null [childId] names a child: [POST /]
    stores [childId || null], so it is never the empty string. *)
Theorem scope_gating (user : User.t) (latitude longitude : float) (w : World)
    (fid : string) (g : Geofence.t) (a : string) :
  User.familyId user = Some fid -> fid <> "" ->
  primary_key w -> childIds_stored w ->
  In g (geofences w) -> Geofence.childId g = Some a -> a <> User.id user ->
  let r := check user latitude longitude w in
  (eventsFor g r.1 = [] /\
   rowsFor g w r.2 = [] /\
   exists zs,
     currentZones (body_of r.1) = map Geofence.name zs /\
     ~ In g zs /\
     (forall z, In z zs -> In z (geofences w)) /\
     (unique_name w g -> ~ In (Geofence.name g) (currentZones (body_of r.1)))) /\
  (forall g', In g' (selectGeofences user fid w).1 ->
     Geofence.childId g' = None \/ Geofence.childId g' = Some (User.id user)).
Proof.
  intros Hfam Hne Hpk Hstored Hin Hchild Hother r.
  destruct (selectGeofences_run user fid w) as (n & _ & _ & _ & Hact).
  split.
  - apply (check_skips user latitude longitude w fid g Hfam Hne Hpk Hin).
    intros Hsel. destruct (Hact g Hsel) as (_ & _ & _ & Happ & _).
    unfold applies_to in Happ. rewrite Hchild in Happ. simpl in Happ.
    apply orb_prop in Happ as [Hempty|Hsame].
    + apply negb_true_iff, negb_false_iff, String.eqb_eq in Hempty. subst a.
      by apply (Hstored g).
    + apply bool_decide_eq_true in Hsame. congruence.
  - intros g' Hsel. destruct (Hact g' Hsel) as (Hin' & _ & _ & Happ & _).
    unfold applies_to in Happ.
    destruct (Geofence.childId g') as [c|] eqn:Ec; [|by left].
    simpl in Happ. apply orb_prop in Happ as [Hempty|Hsame].
    + apply negb_true_iff, negb_false_iff, String.eqb_eq in Hempty. subst c.
      by destruct (Hstored g' Hin').
    + apply bool_decide_eq_true in Hsame. by right.
Qed.

(** The normalisation [POST /] applies never stores the empty string. *)
Lemma stored_childId_named (body_childId : option string) :
  stored_childId body_childId <> Some "".
Proof.
  unfold stored_childId. destruct body_childId as [c|]; simpl; [|done].
  destruct (String.eqb_spec c ""); simpl; congruence.
Qed.

Lemma zonesOf_forget (latitude longitude : float) (l : list Geofence.t) :
  zonesOf latitude longitude l = zonesOf latitude longitude (map forget_policy l).
Proof.
  unfold zonesOf. rewrite filter_map_swap, map_map. reflexivity.
Qed.

Lemma candidates_forget (user : User.t) (fid : string) (w : World) :
  map forget_policy (candidates user fid w)
    = applicableGeofences user
        (List.filter (fun g =>
           String.eqb (Geofence.familyId g) fid &&
           bool_decide (Geofence.isActive g = Some true))
           (map forget_policy (geofences w))).
Proof.
  unfold candidates, applicableGeofences. by rewrite !filter_map_swap.
Qed.

Lemma activeGeofences_forget (l1 l2 : list Geofence.t) (w1 w2 : World) :
  map forget_policy l1 = map forget_policy l2 ->
  clock w1 = clock w2 -> ticks w1 = ticks w2 ->
  map forget_policy (activeGeofences l1 w1).1 = map forget_policy (activeGeofences l2 w2).1.
Proof.
  revert l2 w1 w2. induction l1 as [|g1 l1 IH]; intros [|g2 l2] w1 w2 Hl Hc Ht;
    try discriminate; [done|].
  simpl in Hl.
  assert (forget_policy g1 = forget_policy g2) as Hg by congruence.
  assert (map forget_policy l1 = map forget_policy l2) as Hl' by congruence.
  clear Hl. rename Hl' into Hl.
  assert (Geofence.schedule g1 = Geofence.schedule g2) as Hs
    by exact (f_equal Geofence.schedule Hg).
  simpl. unfold bind, isGeofenceActiveNow. rewrite Hs.
  destruct (Geofence.schedule g2) as [s|].
  - unfold bind, new_Date, ret.
    specialize (IH l2 (set_ticks (S (ticks w1)) w1) (set_ticks (S (ticks w2)) w2) Hl Hc).
    destruct (activeGeofences l1 (set_ticks _ w1)) as [r1 w1'].
    destruct (activeGeofences l2 (set_ticks _ w2)) as [r2 w2'].
    simpl in *. rewrite Hc, Ht.
    destruct (scheduleActiveAt s (clock w2 (ticks w2))); simpl; rewrite IH; congruence.
  - unfold ret. specialize (IH l2 w1 w2 Hl Hc Ht).
    destruct (activeGeofences l1 w1) as [r1 w1'].
    destruct (activeGeofences l2 w2) as [r2 w2'].
    simpl in *. congruence.
Qed.

End Gating.

(** A child without a family asks; the world stays put. *)
Lemma check_without_family_witness :
  @check RefMath.ref Example.loner 40 (-74)
      (Example.world [Example.town; Example.campus] [])
    = (res_json 200 {| events := []; currentZones := [] |},
       Example.world [Example.town; Example.campus] []).
Proof.
  apply (@check_without_family RefMath.ref). reflexivity.
Defined.

(** ** Times of day as strings *)

Lemma below_100_all (P : Z -> bool) :
  forallb P below_100 = true -> forall n, (0 <= n < 100)%Z -> P n = true.
Proof.
  intros Hall n Hn. rewrite forallb_forall in Hall. apply Hall.
  unfold below_100. apply in_map_iff. exists (Z.to_nat n).
  split; [lia|]. apply in_seq. lia.
Qed.

Lemma pad2_length (n : Z) :
  (0 <= n < 100)%Z -> String.length (padStart 2 "0"%char (String_of n)) = 2.
Proof.
  intros Hn. apply Nat.eqb_eq.
  apply (below_100_all (fun n => Nat.eqb (String.length (padStart 2 "0"%char (String_of n))) 2));
    [vm_compute; reflexivity|done].
Qed.

Lemma pad2_compare (a b : Z) :
  (0 <= a < 100)%Z -> (0 <= b < 100)%Z ->
  String.compare (padStart 2 "0"%char (String_of a)) (padStart 2 "0"%char (String_of b))
    = (a ?= b)%Z.
Proof.
  intros Ha Hb.
  assert (forallb (fun a => forallb (pad2_agrees a) below_100) below_100 = true) as Hall
    by (vm_compute; reflexivity).
  pose proof (below_100_all _ Hall a Ha) as Ha'. cbv beta in Ha'.
  pose proof (below_100_all _ Ha' b Hb) as E. unfold pad2_agrees in E.
  destruct (String.compare _ _), (a ?= b)%Z; done.
Qed.

Lemma compare_app (x y s t : string) :
  String.length x = String.length y ->
  String.compare (x +:+ s) (y +:+ t)
    = match String.compare x y with
      | Eq => String.compare s t
      | c => c
      end.
Proof.
  revert y. induction x as [|a x IH]; intros [|b y] Hlen; try discriminate; [done|].
  simpl in *. destruct (Ascii.compare a b); [|done|done].
  apply IH. congruence.
Qed.

Lemma hhmm_compare (h1 m1 h2 m2 : Z) :
  (0 <= h1 < 100)%Z -> (0 <= m1 < 100)%Z -> (0 <= h2 < 100)%Z -> (0 <= m2 < 100)%Z ->
  String.compare (hhmm h1 m1) (hhmm h2 m2)
    = match (h1 ?= h2)%Z with
      | Eq => (m1 ?= m2)%Z
      | c => c
      end.
Proof.
  intros Hh1 Hm1 Hh2 Hm2. unfold hhmm.
  rewrite compare_app by by rewrite !pad2_length.
  rewrite pad2_compare by done.
  destruct (h1 ?= h2)%Z; [|done|done].
  rewrite (compare_app ":" ":") by done. simpl.
  by rewrite pad2_compare.
Qed.

Lemma hhmm_leb (h1 m1 h2 m2 : Z) :
  (0 <= h1 < 24)%Z -> (0 <= m1 < 60)%Z -> (0 <= h2 < 24)%Z -> (0 <= m2 < 60)%Z ->
  String.leb (hhmm h1 m1) (hhmm h2 m2) = (minuteOfDay h1 m1 <=? minuteOfDay h2 m2)%Z.
Proof.
  intros Hh1 Hm1 Hh2 Hm2. unfold String.leb, minuteOfDay.
  rewrite hhmm_compare by lia.
  destruct (Z.compare_spec h1 h2) as [->|Hlt|Hgt].
  - destruct (Z.compare_spec m1 m2); symmetry;
      [apply Z.leb_le|apply Z.leb_le|apply Z.leb_gt]; lia.
  - symmetry. apply Z.leb_le. lia.
  - symmetry. apply Z.leb_gt. lia.
Qed.

Lemma includes_In (xs : list Z) (x : Z) : includes xs x = true <-> In x xs.
Proof.
  unfold includes. rewrite existsb_exists. split.
  - intros (y & Hy & Heq). apply Z.eqb_eq in Heq. by subst.
  - intros Hin. exists x. split; [done|]. apply Z.eqb_refl.
Qed.

Lemma scheduleActiveAt_spec (s : Schedule) (now : Date.t) :
  scheduleActiveAt s now = true <->
  In (Date.getDay now) (days s) /\
  String.leb (startTime s) (currentTime_of now) = true /\
  String.leb (currentTime_of now) (endTime s) = true.
Proof.
  unfold scheduleActiveAt, str_ge, str_le. rewrite <- includes_In.
  destruct (includes (days s) (Date.getDay now)); simpl.
  - rewrite andb_true_iff. tauto.
  - split; [done|]. by intros [? _].
Qed.

(** ** Schedule gating *)

Section Schedule.
Context `{HostMath}.

End Schedule.

(** ** The properties at work on the example family *)

Ltac distinct_ids :=
  unfold primary_key; simpl;
  repeat (apply List.NoDup_cons; [simpl; intuition discriminate|]);
  apply List.NoDup_nil.



(** The sister's ballet zone says nothing about the kid. *)
Lemma scope_gating_witness :
  let w := Example.world [Example.town; Example.sister_zone] [] in
  let r := @check RefMath.ref Example.kid 40 (-74) w in
  eventsFor Example.sister_zone r.1 = [] /\
  rowsFor Example.sister_zone w r.2 = [] /\
  ~ In "Ballet" (currentZones (body_of r.1)).
Proof.
  intros w r.
  destruct (@scope_gating RefMath.ref Example.kid 40 (-74) w "fam" Example.sister_zone "sis")
    as ((Hev & Hrows & zs & _ & _ & _ & Hname) & _).
  - reflexivity.
  - discriminate.
  - distinct_ids.
  - intros g [<-|[<-|[]]]; discriminate.
  - simpl. tauto.
  - reflexivity.
  - discriminate.
  - split; [exact Hev|]. split; [exact Hrows|].
    apply Hname. intros z [<-|[<-|[]]]; [discriminate|reflexivity].
Defined.


(** ** State reconstruction *)

Lemma lastStateMap_fold (l : list GeofenceEvent.t) (m : gmap string EventType) (k : string) :
  fold_left lastStateMap_step l m !! k
    = match m !! k with
      | Some v => Some v
      | None => GeofenceEvent.eventType <$> head (List.filter (is_state_of k) l)
      end.
Proof.
  revert m. induction l as [|e l IH]; intros m; simpl.
  - by destruct (m !! k).
  - rewrite IH. unfold lastStateMap_step, is_state_of.
    destruct (String.eqb_spec (GeofenceEvent.geofenceId e) k) as [Hk|Hk]; simpl.
    + rewrite Hk.
      destruct (m !! k) as [v|] eqn:Em; simpl.
      * by rewrite Em.
      * destruct (bool_decide (GeofenceEvent.eventType e = enter)
                  || bool_decide (GeofenceEvent.eventType e = exit)); simpl.
        -- by rewrite lookup_insert_eq.
        -- by rewrite Em.
    + destruct (negb _ && _); [|done].
      by rewrite lookup_insert_ne.
Qed.

(** What the map says about a geofence is the type of the first [enter] or
    [exit] event of that geofence among the events it was built from. *)
Lemma lastStateMap_lookup (l : list GeofenceEvent.t) (k : string) :
  lastStateMap l !! k = GeofenceEvent.eventType <$> head (List.filter (is_state_of k) l).
Proof. unfold lastStateMap. by rewrite lastStateMap_fold, lookup_empty. Qed.

(** ** Ordering by timestamp *)

Lemma insert_desc_In (e x : GeofenceEvent.t) (l : list GeofenceEvent.t) :
  In x (insert_desc e l) <-> x = e \/ In x l.
Proof.
  induction l as [|a l IH]; simpl; [intuition|].
  destruct (GeofenceEvent.timestamp a <=? GeofenceEvent.timestamp e)%Z; simpl;
    [intuition|].
  rewrite IH. intuition.
Qed.

Lemma orderBy_desc_In (x : GeofenceEvent.t) (l : list GeofenceEvent.t) :
  In x (orderBy_desc_timestamp l) <-> In x l.
Proof.
  unfold orderBy_desc_timestamp. induction l as [|a l IH]; simpl; [done|].
  rewrite insert_desc_In, IH. intuition.
Qed.

Lemma insert_desc_length (e : GeofenceEvent.t) (l : list GeofenceEvent.t) :
  length (insert_desc e l) = S (length l).
Proof.
  induction l as [|a l IH]; simpl; [done|].
  destruct (GeofenceEvent.timestamp a <=? GeofenceEvent.timestamp e)%Z; simpl; lia.
Qed.

Lemma orderBy_desc_length (l : list GeofenceEvent.t) :
  length (orderBy_desc_timestamp l) = length l.
Proof.
  unfold orderBy_desc_timestamp. induction l as [|a l IH]; simpl; [done|].
  by rewrite insert_desc_length, IH.
Qed.

Lemma insert_desc_after (o : GeofenceEvent.t) (newer older : list GeofenceEvent.t) :
  (forall n, In n newer -> (GeofenceEvent.timestamp o < GeofenceEvent.timestamp n)%Z) ->
  insert_desc o (newer ++ older) = newer ++ insert_desc o older.
Proof.
  induction newer as [|n newer IH]; intros Hnew; simpl; [done|].
  assert ((GeofenceEvent.timestamp n <=? GeofenceEvent.timestamp o)%Z = false) as ->.
  { apply Z.leb_gt. apply Hnew. by left. }
  rewrite IH; [done|]. intros n' Hn'. apply Hnew. by right.
Qed.

(** Rows stamped later than every earlier row come first, whatever the
    order among themselves. *)
Lemma orderBy_desc_newer (old new : list GeofenceEvent.t) :
  (forall o n, In o old -> In n new ->
     (GeofenceEvent.timestamp o < GeofenceEvent.timestamp n)%Z) ->
  orderBy_desc_timestamp (old ++ new)
    = orderBy_desc_timestamp new ++ orderBy_desc_timestamp old.
Proof.
  intros Hlt. unfold orderBy_desc_timestamp. rewrite fold_right_app.
  fold (orderBy_desc_timestamp new).
  induction old as [|o old IH]; simpl; [by rewrite app_nil_r|].
  rewrite IH by (intros; apply Hlt; [by right|done]).
  apply insert_desc_after. intros n Hn. apply (proj1 (orderBy_desc_In n new)) in Hn.
  apply Hlt; [by left|done].
Qed.

Lemma firstn_In_inv {A} (n : nat) (l : list A) (x : A) : In x (firstn n l) -> In x l.
Proof.
  revert l. induction n as [|n IH]; intros [|a l]; simpl; try tauto.
  intros [->|Hx]; [by left|right; by apply IH].
Qed.

Lemma head_filter_app {A B} (P : A -> bool) (f : A -> B) (v : B) (l rest : list A) :
  (exists x, In x l /\ P x = true) ->
  (forall x, In x l -> P x = true -> f x = v) ->
  f <$> head (List.filter P l ++ rest) = Some v.
Proof.
  intros (x & Hx & HP) Hall.
  assert (In x (List.filter P l)) as Hin by (apply filter_In; done).
  destruct (List.filter P l) as [|y ys] eqn:E; [done|].
  simpl. f_equal. assert (In y (List.filter P l)) as Hy by (rewrite E; by left).
  apply filter_In in Hy as [Hy1 Hy2]. by apply Hall.
Qed.

Lemma Forall2_In_r {A B} (R : A -> B -> Prop) (l1 : list A) (l2 : list B) (y : B) :
  Forall2 R l1 l2 -> In y l2 -> exists x, In x l1 /\ R x y.
Proof.
  induction 1 as [|a b l1 l2 Hab _ IH]; simpl; [done|].
  intros [<-|Hy].
  - exists a. split; [by left|done].
  - destruct (IH Hy) as (x & Hx & HR). exists x. split; [by right|done].
Qed.

Section TwoCalls.
Context `{HostMath}.

(** The rows one call appends belong to the caller, are stamped by clock
    readings of that call, and are at most as many as the geofences it
    evaluates. *)
Lemma check_rows (user : User.t) (latitude longitude : float) (w : World) (fid : string) :
  User.familyId user = Some fid -> fid <> "" ->
  let w' := (check user latitude longitude w).2 in
  geofences w' = geofences w /\
  clock w' = clock w /\
  ticks w <= ticks w' /\
  geofenceEvents w' = geofenceEvents w ++ newRows w w' /\
  length (newRows w w') <= length (selectGeofences user fid w).1 /\
  forall row, In row (newRows w w') ->
    GeofenceEvent.childId row = User.id user /\
    exists j, ticks w <= j /\
      GeofenceEvent.timestamp row = mapToDriverValue (clock w j).
Proof.
  intros Hfam Hne w'.
  destruct (check_run user latitude longitude w fid Hfam Hne)
    as (ps & w1 & E & _ & Hg & He & Hc & Ht & _ & _ & F).
  subst w'. rewrite E. simpl.
  assert (newRows w w1 = map snd ps) as ->.
  { unfold newRows. by rewrite He, skipn_app, skipn_all, Nat.sub_diag. }
  split; [done|]. split; [done|]. split; [done|]. split; [done|]. split.
  - pose proof (Forall2_length _ _ _ F) as Hlen.
    rewrite length_map, <- Hlen. apply decisions_length.
  - intros row Hrow. apply in_map_iff in Hrow as (p & <- & Hp).
    destruct (Forall2_In_r _ _ _ p F Hp) as (d & _ & Hd).
    destruct Hd as (_ & _ & _ & (j & Hj & Hts) & _ & Hchild & _ & _ & _ & Hstamp).
    split; [done|]. exists j. split; [done|]. by rewrite Hstamp, Hts.
Qed.

(** After a call that stored one event of type [ty] for a geofence that had
    none, and whose rows are stamped later than the caller's earlier rows,
    a reconstruction over at least as many rows as the call stored finds
    [ty] as the geofence's last state. *)
Lemma lastStateMap_after (user : User.t) (latitude longitude : float) (w : World)
    (fid : string) (g : Geofence.t) (ty : EventType) (n : nat) :
  User.familyId user = Some fid -> fid <> "" ->
  let w' := (check user latitude longitude w).2 in
  (forall e, In e (geofenceEvents w) -> GeofenceEvent.childId e = User.id user ->
     GeofenceEvent.geofenceId e <> Geofence.id g) ->
  (forall e j, In e (geofenceEvents w) -> GeofenceEvent.childId e = User.id user ->
     ticks w <= j -> (GeofenceEvent.timestamp e < mapToDriverValue (clock w j))%Z) ->
  rowsFor g w w' = [ty] -> ty <> dwell ->
  length (newRows w w') <= n ->
  lastStateMap (lastEventsOf user n w') !! Geofence.id g = Some ty.
Proof.
  intros Hfam Hne w' Hfresh Hclock Hrow Hty Hn.
  destruct (check_rows user latitude longitude w fid Hfam Hne)
    as (_ & _ & _ & He & _ & Hrows).
  fold w' in He, Hrows.
  set (rows := newRows w w') in *.
  set (mine := fun e => String.eqb (GeofenceEvent.childId e) (User.id user)).
  rewrite lastStateMap_lookup. unfold lastEventsOf. fold mine. rewrite He.
  rewrite List.filter_app.
  assert (List.filter mine rows = rows) as ->.
  { apply forallb_filter_id, forallb_forall. intros row Hr.
    apply String.eqb_eq. by apply Hrows. }
  rewrite orderBy_desc_newer.
  2:{ intros o r Ho Hr. apply filter_In in Ho as [Ho Hmine].
      apply String.eqb_eq in Hmine.
      destruct (Hrows r Hr) as (_ & j & Hj & ->). by apply Hclock. }
  rewrite firstn_app, orderBy_desc_length.
  rewrite firstn_all2 by by rewrite orderBy_desc_length.
  rewrite List.filter_app.
  match goal with
  | |- context [?a ++ List.filter (is_state_of (Geofence.id g)) (firstn ?k ?l)] =>
      assert (List.filter (is_state_of (Geofence.id g)) (firstn k l) = []) as ->
  end.
  { apply filter_none. intros x Hx. apply firstn_In_inv in Hx.
    apply (proj1 (orderBy_desc_In _ _)) in Hx. apply filter_In in Hx as [Hx Hmine].
    apply String.eqb_eq in Hmine. unfold is_state_of.
    apply andb_false_intro1. apply String.eqb_neq. by apply Hfresh. }
  unfold rowsFor in Hrow. fold rows in Hrow.
  apply head_filter_app.
  - destruct (List.filter _ rows) as [|x xs] eqn:E; [done|].
    assert (In x (List.filter (fun e => String.eqb (GeofenceEvent.geofenceId e) (Geofence.id g)) rows))
      as Hx by (rewrite E; by left).
    apply filter_In in Hx as [Hx Hid].
    exists x. split; [by apply orderBy_desc_In|].
    unfold is_state_of. rewrite Hid. simpl.
    simpl in Hrow. injection Hrow as Hx' _. rewrite Hx'.
    destruct ty; done.
  - intros x Hx Hstate. apply (proj1 (orderBy_desc_In _ _)) in Hx.
    unfold is_state_of in Hstate. apply andb_prop in Hstate as [Hid _].
    assert (In (GeofenceEvent.eventType x)
              (map GeofenceEvent.eventType
                 (List.filter (fun e => String.eqb (GeofenceEvent.geofenceId e) (Geofence.id g))
                    rows))) as Hin.
    { apply in_map. apply filter_In. done. }
    rewrite Hrow in Hin. by destruct Hin as [<-|[]].
Qed.
End TwoCalls.

(** ** The zone state machine *)

Lemma emitted_zone_step (lastState : option EventType) (inside : bool) (g : Geofence.t) :
  emitted lastState inside g
    = (zone_step (zoneState lastState) inside
         (truthy_bool (Geofence.notifyEnter g)) (truthy_bool (Geofence.notifyExit g))).2.
Proof.
  unfold emitted, zone_step, zoneState.
  destruct lastState as [[]|], inside,
    (truthy_bool (Geofence.notifyEnter g)), (truthy_bool (Geofence.notifyExit g));
    reflexivity.
Qed.

Lemma zone_step_emits (s : ZoneState) (inside notifyEnter notifyExit : bool) (ty : EventType) :
  (zone_step s inside notifyEnter notifyExit).2 = Some ty <->
  (ty = enter /\ s <> Inside /\ inside = true /\ notifyEnter = true) \/
  (ty = exit /\ s = Inside /\ inside = false /\ notifyExit = true).
Proof.
  split.
  - destruct s, inside, notifyEnter, notifyExit; simpl; intros Hc;
      try discriminate; injection Hc as <-;
      solve [left; repeat split; done | right; repeat split; done].
  - intros [(-> & Hs & -> & ->)|(-> & -> & -> & ->)]; [|by destruct notifyEnter].
    by destruct s, notifyExit.
Qed.

Section Coverage.
Context `{HostMath}.

Lemma lastStateMap_unknown (user : User.t) (n : nat) (w : World) (g : Geofence.t) :
  (forall e, In e (geofenceEvents w) -> GeofenceEvent.childId e = User.id user ->
     GeofenceEvent.geofenceId e <> Geofence.id g) ->
  lastStateMap (lastEventsOf user n w) !! Geofence.id g = None.
Proof.
  intros Hfresh. rewrite lastStateMap_lookup, filter_none; [done|].
  intros x Hx. unfold lastEventsOf in Hx. apply firstn_In_inv in Hx.
  apply (proj1 (orderBy_desc_In _ _)) in Hx. apply filter_In in Hx as [Hx Hmine].
  apply String.eqb_eq in Hmine. unfold is_state_of.
  apply andb_false_intro1. apply String.eqb_neq. by apply Hfresh.
Qed.

End Coverage.


(** ** The window of [lastEvents] *)

Lemma insert_desc_first (e : GeofenceEvent.t) (l : list GeofenceEvent.t) :
  Forall (not_older e) l -> insert_desc e l = e :: l.
Proof.
  destruct l as [|a l]; [done|]. intros Hall. simpl.
  apply Forall_inv in Hall. unfold not_older in Hall.
  by rewrite (proj2 (Z.leb_le _ _) Hall).
Qed.

Lemma insert_desc_sorted (e : GeofenceEvent.t) (l : list GeofenceEvent.t) :
  StronglySorted not_older l -> StronglySorted not_older (insert_desc e l).
Proof.
  induction 1 as [|a l Hs IH Hall]; simpl; [repeat constructor|].
  destruct (Z.leb_spec (GeofenceEvent.timestamp a) (GeofenceEvent.timestamp e)) as [Hle|Hgt].
  - constructor; [by constructor|]. constructor; [done|].
    eapply List.Forall_impl; [|exact Hall]. unfold not_older. intros x Hx. lia.
  - constructor; [done|]. apply List.Forall_forall. intros x Hx.
    apply insert_desc_In in Hx as [->|Hx]; [unfold not_older; lia|].
    by apply (proj1 (List.Forall_forall _ _) Hall).
Qed.

Lemma orderBy_desc_sorted (l : list GeofenceEvent.t) :
  StronglySorted not_older (orderBy_desc_timestamp l).
Proof.
  unfold orderBy_desc_timestamp. induction l as [|a l IH]; simpl; [constructor|].
  by apply insert_desc_sorted.
Qed.

Lemma insert_desc_filter (P : GeofenceEvent.t -> bool) (e : GeofenceEvent.t)
    (l : list GeofenceEvent.t) :
  StronglySorted not_older l ->
  List.filter P (insert_desc e l)
    = if P e then insert_desc e (List.filter P l) else List.filter P l.
Proof.
  induction 1 as [|a l Hs IH Hall]; simpl.
  - by destruct (P e).
  - destruct (Z.leb_spec (GeofenceEvent.timestamp a) (GeofenceEvent.timestamp e)) as [Hle|Hgt];
      simpl.
    + destruct (P e) eqn:Ee, (P a) eqn:Ea; simpl; rewrite ?Ee, ?Ea; try done.
      * by rewrite (proj2 (Z.leb_le _ _) Hle).
      * rewrite insert_desc_first; [done|].
        apply List.Forall_forall. intros x Hx. apply filter_In in Hx as [Hx _].
        pose proof (proj1 (List.Forall_forall _ _) Hall x Hx) as Hxa.
        unfold not_older in *. lia.
    + rewrite IH. destruct (P e) eqn:Ee, (P a) eqn:Ea; simpl; rewrite ?Ee, ?Ea; try done.
      by rewrite (proj2 (Z.leb_gt _ _) Hgt).
Qed.

(** Sorting by timestamp keeps table order among equals, so it commutes
    with a [where] clause. *)
Lemma orderBy_desc_filter (P : GeofenceEvent.t -> bool) (l : list GeofenceEvent.t) :
  orderBy_desc_timestamp (List.filter P l) = List.filter P (orderBy_desc_timestamp l).
Proof.
  induction l as [|a l IH]; simpl; [done|].
  change (orderBy_desc_timestamp (a :: l)) with (insert_desc a (orderBy_desc_timestamp l)).
  rewrite insert_desc_filter by apply orderBy_desc_sorted.
  destruct (P a); [|done].
  change (orderBy_desc_timestamp (a :: List.filter P l))
    with (insert_desc a (orderBy_desc_timestamp (List.filter P l))).
  by rewrite IH.
Qed.

Lemma filter_filter {A} (P Q : A -> bool) (l : list A) :
  List.filter P (List.filter Q l) = List.filter (fun x => P x && Q x) l.
Proof.
  induction l as [|a l IH]; simpl; [done|].
  destruct (Q a); simpl; destruct (P a); simpl; by rewrite IH.
Qed.

(** When the limit covers all the rows of the child, the map holds the
    last known state of every geofence. *)
Lemma lastStateMap_whole_log (user : User.t) (n : nat) (w : World) (geofenceId : string) :
  length (List.filter (fun e => String.eqb (GeofenceEvent.childId e) (User.id user))
            (geofenceEvents w)) <= n ->
  lastStateMap (lastEventsOf user n w) !! geofenceId
    = lastKnownState (geofenceEvents w) geofenceId (User.id user).
Proof.
  intros Hn. rewrite lastStateMap_lookup. unfold lastEventsOf, lastKnownState.
  rewrite firstn_all2 by by rewrite orderBy_desc_length.
  rewrite orderBy_desc_filter, filter_filter. do 2 f_equal.
  apply filter_ext. intros e. unfold is_state_of, is_membership_event.
  destruct (String.eqb _ geofenceId), (String.eqb _ (User.id user)),
    (bool_decide _ || bool_decide _); reflexivity.
Qed.

(** ** Where the single limit falls short *)

(** C2. The reconstructed state is meant to be the type of the most recent
    [enter] or [exit] event of the pair in the whole log; the code does not
    achieve it.  After the four reports of the example the log says that the
    child last entered "Town" and never left it, but the map that the next
    call builds from the [activeGeofences.length = 2] most recent rows has
    no entry for "Town": both rows are about "Campus". *)
Theorem lastStateMap_misses_older_state :
  let w := Example.after_four_reports in
  let active := (@selectGeofences Example.kid "fam" w).1 in
  length active = 2 /\
  lastKnownState (geofenceEvents w) "g-town" "kid" = Some enter /\
  map (fun e => (GeofenceEvent.geofenceId e, GeofenceEvent.eventType e))
      (lastEventsOf Example.kid (length active) w)
    = [("g-campus", enter); ("g-campus", exit)] /\
  lastStateMap (lastEventsOf Example.kid (length active) w) !! "g-town" = None.
Proof. vm_compute. repeat split; reflexivity. Qed.

(** C1. A call repeated at once from the same point is meant to return no
    event; the code does not achieve it.  The fourth and the fifth report of
    the example come from the same point with nothing in between.  The
    fourth reports that the child entered "Campus"; the fifth is not empty:
    it reports that the child entered "Town", where the log already has it
    since the second report. *)
Theorem check_twice_reports_again :
  let w := Example.after_three_reports in
  let first := @check RefMath.ref Example.kid 40.03125 (-74) w in
  let second := @check RefMath.ref Example.kid 40.03125 (-74) first.2 in
  lastKnownState (geofenceEvents w) "g-town" "kid" = Some enter /\
  Example.summary first.1 = ([("Campus", enter)], ["Town"; "Campus"]) /\
  Example.summary second.1 = ([("Town", enter)], ["Town"; "Campus"]) /\
  events (body_of second.1) <> [].
Proof.
  vm_compute. repeat split; try reflexivity. discriminate.
Qed.

(** * More of the code *)

(** ** Codes *)

Lemma get_In (alpha : string) (i : nat) :
  i < String.length alpha ->
  exists c, String.get i alpha = Some c /\ In c (list_ascii_of_string alpha).
Proof.
  revert i. induction alpha as [|a alpha IH]; intros i Hi; simpl in *; [lia|].
  destruct i as [|i].
  - exists a. split; [done|by left].
  - destruct (IH i) as (c & Hc & Hin); [lia|]. exists c. split; [done|by right].
Qed.

Lemma pick_In (alpha : string) (b : N) :
  0 < String.length alpha -> In (pick alpha b) (list_ascii_of_string alpha).
Proof.
  intros Hpos. unfold pick.
  destruct (get_In alpha (N.to_nat (b mod N.of_nat (String.length alpha)))) as (c & -> & Hc);
    [|done].
  assert (b mod N.of_nat (String.length alpha) < N.of_nat (String.length alpha))%N
    by (apply N.mod_lt; lia).
  lia.
Qed.

Lemma string_of_list_length (l : list ascii) :
  String.length (string_of_list_ascii l) = length l.
Proof. induction l as [|a l IH]; simpl; congruence. Qed.

Lemma randomBytes_length (n : nat) (w : World) : length (randomBytes n w).1 = n.
Proof. unfold randomBytes. cbn [fst]. by rewrite length_map, length_seq. Qed.

(** The characters of a code, one per random byte. *)
Lemma generateCode_chars (n : nat) (w : World) :
  exists chars,
    generateCode n w = (string_of_list_ascii chars, set_drawn (drawn w + n) w) /\
    length chars = n /\
    Forall (fun c => In c (list_ascii_of_string alphabet)) chars.
Proof.
  exists (map (pick alphabet) (randomBytes n w).1).
  split; [reflexivity|]. split; [by rewrite length_map, randomBytes_length|].
  apply List.Forall_forall. intros c Hc. apply in_map_iff in Hc as (b & <- & _).
  apply pick_In. vm_compute. lia.
Qed.

(** X1. [generateCode(n)] returns exactly [n] characters, each one of the
    32 characters of the alphabet (capital letters and digits without I, O,
    0 and 1), and consumes [n] random bytes. *)
Theorem generateCode_shape (n : nat) (w : World) :
  let code := (generateCode n w).1 in
  String.length code = n /\
  Forall (fun c => In c (list_ascii_of_string alphabet)) (list_ascii_of_string code) /\
  Forall (fun c => ~ In c ["I"; "O"; "0"; "1"]%char) (list_ascii_of_string code) /\
  drawn (generateCode n w).2 = drawn w + n.
Proof.
  intros code. subst code.
  destruct (generateCode_chars n w) as (chars & -> & Hlen & Hin). cbn [fst snd].
  rewrite list_ascii_of_string_of_list_ascii, string_of_list_length.
  split; [done|]. split; [done|]. split; [|done].
  eapply List.Forall_impl; [|exact Hin].
  intros c Hc Hbad. cbn in Hc. cbn in Hbad.
  repeat (destruct Hbad as [<-|Hbad]; [intuition discriminate|]). done.
Qed.

(** X2. A pairing code has the form [XXXX-XXXX]: nine characters, a dash in
    the middle and alphabet characters everywhere else; the two halves use
    eight consecutive random bytes, four each. *)
Theorem createPairingCode_shape (w : World) :
  let code := (createPairingCode w).1 in
  String.length code = 9 /\
  String.get 4 code = Some "-"%char /\
  (forall i, i < 9 -> i <> 4 ->
     exists c, String.get i code = Some c /\ In c (list_ascii_of_string alphabet)) /\
  code = (generateCode 4 w).1 +:+ "-" +:+ (generateCode 4 (set_drawn (drawn w + 4) w)).1 /\
  drawn (createPairingCode w).2 = drawn w + 8.
Proof.
  intros code. subst code. unfold createPairingCode, bind.
  destruct (generateCode_chars 4 w) as (a & -> & Ha & Hina).
  destruct (generateCode_chars 4 (set_drawn (drawn w + 4) w)) as (b & -> & Hb & Hinb).
  cbn [fst snd ret].
  destruct a as [|a0 [|a1 [|a2 [|a3 [|? ?]]]]]; try discriminate.
  destruct b as [|b0 [|b1 [|b2 [|b3 [|? ?]]]]]; try discriminate.
  cbn [string_of_list_ascii String.append String.length String.get].
  split; [done|]. split; [done|]. split; [|split; [done|simpl; lia]].
  intros i Hi Hne.
  repeat (apply Forall_cons_iff in Hina as [? Hina]).
  repeat (apply Forall_cons_iff in Hinb as [? Hinb]).
  do 9 (destruct i as [|i]; [cbn; eauto; done|]). lia.
Qed.

(** X3. [generateId()] returns 21 characters, each one of the 64
    characters of its alphabet (letters, digits, [_] and [-]), and consumes
    21 random bytes. *)
Theorem generateId_shape (w : World) :
  let id := (generateId w).1 in
  String.length id = 21 /\
  Forall (fun c => In c (list_ascii_of_string idAlphabet)) (list_ascii_of_string id) /\
  drawn (generateId w).2 = drawn w + 21.
Proof.
  intros id. subst id. unfold generateId, bind, ret. cbn [fst snd].
  destruct (randomBytes 21 w) as [bytes w'] eqn:E.
  assert (length bytes = 21) as Hlen
    by (pose proof (randomBytes_length 21 w) as Hl; by rewrite E in Hl).
  assert (w' = set_drawn (drawn w + 21) w) as -> by (unfold randomBytes in E; congruence).
  cbn [fst snd].
  rewrite list_ascii_of_string_of_list_ascii, string_of_list_length, length_map.
  split; [done|]. split; [|done].
  apply List.Forall_forall. intros c Hc. apply in_map_iff in Hc as (b & <- & _).
  apply (pick_In idAlphabet). vm_compute. lia.
Qed.

(** X4. The codes have no modulo bias: the alphabets have 32 and 64
    distinct characters, and every character is the image of the same number
    of byte values, 8 for [alphabet] and 4 for [idAlphabet]. *)
Theorem pick_unbiased :
  List.NoDup (list_ascii_of_string alphabet) /\
  Forall (fun c => preimages alphabet c = 8) (list_ascii_of_string alphabet) /\
  List.NoDup (list_ascii_of_string idAlphabet) /\
  Forall (fun c => preimages idAlphabet c = 4) (list_ascii_of_string idAlphabet).
Proof.
  split; [|split; [|split]].
  - apply (NoDup_map_inv nat_of_ascii). vm_compute.
    repeat (apply List.NoDup_cons; [simpl; lia|]). apply List.NoDup_nil.
  - cbn [list_ascii_of_string alphabet]. repeat (constructor; [vm_compute; reflexivity|]).
    constructor.
  - apply (NoDup_map_inv nat_of_ascii). vm_compute.
    repeat (apply List.NoDup_cons; [simpl; lia|]). apply List.NoDup_nil.
  - cbn [list_ascii_of_string idAlphabet]. repeat (constructor; [vm_compute; reflexivity|]).
    constructor.
Qed.

(** ** Containing geofences *)

Lemma filter_sublist {A} (f : A -> bool) (l : list A) : sublist (List.filter f l) l.
Proof.
  induction l as [|a l IH]; simpl; [constructor|].
  destruct (f a); by constructor.
Qed.

Section ContainingFacts.
Context `{HostMath}.

End ContainingFacts.

(** ** Schedules that never open *)

Lemma ascii_compare_trans (a b c : ascii) :
  Ascii.compare a b <> Gt -> Ascii.compare b c <> Gt ->
  Ascii.compare a c <> Gt /\
  (Ascii.compare a c = Eq -> Ascii.compare a b = Eq /\ Ascii.compare b c = Eq).
Proof.
  unfold Ascii.compare.
  destruct (N.compare_spec (N_of_ascii a) (N_of_ascii b)),
           (N.compare_spec (N_of_ascii b) (N_of_ascii c)),
           (N.compare_spec (N_of_ascii a) (N_of_ascii c));
    intros Hab Hbc; split; try done; try lia; intros; lia.
Qed.

Lemma string_leb_trans (a b c : string) :
  String.leb a b = true -> String.leb b c = true -> String.leb a c = true.
Proof.
  unfold String.leb. revert b c.
  induction a as [|x a IH]; intros [|y b] [|z c]; simpl; try done.
  intros Hab Hbc.
  assert (Ascii.compare x y <> Gt) as Hxy by (destruct (Ascii.compare x y); done).
  assert (Ascii.compare y z <> Gt) as Hyz by (destruct (Ascii.compare y z); done).
  destruct (ascii_compare_trans x y z Hxy Hyz) as [Hxz Heq].
  destruct (Ascii.compare x z) eqn:Exz; [|done|done].
  destruct (Heq eq_refl) as [Exy Eyz]. rewrite Exy in Hab. rewrite Eyz in Hbc.
  by apply (IH b c).
Qed.

Section NeverOpen.
Context `{HostMath}.

(** X6. A schedule whose [endTime] sorts before its [startTime], such as a
    window from 22:00 to 06:00 across midnight, is active at no moment of
    any day; a geofence with such a schedule is never evaluated, and
    [POST /check] reports nothing for it. *)
Theorem schedule_across_midnight (s : Schedule) :
  String.ltb (endTime s) (startTime s) = true ->
  (forall now, scheduleActiveAt s now = false) /\
  (forall (g : Geofence.t) (user : User.t) (latitude longitude : float) (w : World)
          (fid : string),
     Geofence.schedule g = Some s ->
     User.familyId user = Some fid -> fid <> "" ->
     primary_key w -> In g (geofences w) ->
     let r := check user latitude longitude w in
     ~ In g (selectGeofences user fid w).1 /\
     eventsFor g r.1 = [] /\
     rowsFor g w r.2 = []).
Proof.
  intros Hwrap.
  assert (forall now, scheduleActiveAt s now = false) as Hnever.
  { intros now. destruct (scheduleActiveAt s now) eqn:E; [|done].
    apply scheduleActiveAt_spec in E as (_ & Hstart & Hend).
    pose proof (string_leb_trans _ _ _ Hstart Hend) as Hle.
    unfold String.ltb in Hwrap. unfold String.leb in Hle.
    rewrite String.compare_antisym in Hle.
    by destruct (String.compare (endTime s) (startTime s)). }
  split; [done|].
  intros g user latitude longitude w fid Hs Hfam Hne Hpk Hin r.
  assert (~ In g (selectGeofences user fid w).1) as Hout.
  { apply selectGeofences_excludes. exists s. split; [done|]. intros k _. apply Hnever. }
  split; [done|].
  destruct (check_skips user latitude longitude w fid g Hfam Hne Hpk Hin Hout)
    as (Hev & Hrows & _).
  done.
Qed.
End NeverOpen.

(** From 22:00 to 06:00: closed at half past eleven at night. *)
Lemma schedule_across_midnight_witness :
  scheduleActiveAt night_hours
    {| Date.getTime := 0; Date.getDay := 3; Date.getHours := 23; Date.getMinutes := 30 |}
    = false.
Proof.
  destruct (@schedule_across_midnight RefMath.ref night_hours) as [Hnever _];
    [reflexivity|].
  apply Hnever.
Defined.

Lemma hhmm_starts_low (h m : Z) :
  (0 <= h < 24)%Z ->
  exists d rest, hhmm h m = String d rest /\ Ascii.compare "2"%char d <> Lt.
Proof.
  intros Hh.
  pose proof (below_100_all (fun h => if (h <? 24)%Z then starts_low h else true)
                ltac:(vm_compute; reflexivity) h ltac:(lia)) as Hlow.
  cbv beta in Hlow. rewrite (proj2 (Z.ltb_lt h 24)) in Hlow by lia.
  unfold starts_low in Hlow. unfold hhmm.
  destruct (padStart 2 "0"%char (String_of h)) as [|d rest]; [done|].
  exists d, (rest +:+ ":" +:+ padStart 2 "0"%char (String_of m)). split; [done|].
  unfold Ascii.ltb in Hlow. by destruct (Ascii.compare "2"%char d).
Qed.

(** X7. Times are compared as text.  A [startTime] whose first character
    sorts after "2", such as "9:00" written without its leading zero, is
    later than every time of day the clock can show, so a schedule with it
    is never active. *)
Theorem schedule_unpadded_start (s : Schedule) (c : ascii) (rest : string) (now : Date.t) :
  startTime s = String c rest ->
  Ascii.compare "2"%char c = Lt ->
  (0 <= Date.getHours now < 24)%Z ->
  scheduleActiveAt s now = false.
Proof.
  intros Hstart Hc Hh.
  destruct (scheduleActiveAt s now) eqn:E; [|done].
  apply scheduleActiveAt_spec in E as (_ & Hle & _).
  change (currentTime_of now) with (hhmm (Date.getHours now) (Date.getMinutes now)) in Hle.
  destruct (hhmm_starts_low (Date.getHours now) (Date.getMinutes now) Hh)
    as (d & rest' & Heq & Hd).
  rewrite Heq, Hstart in Hle. unfold String.leb in Hle. simpl in Hle.
  assert (Ascii.compare c d = Gt) as Hgt.
  { unfold Ascii.compare in *.
    destruct (N.compare_spec (N_of_ascii "2") (N_of_ascii c)); try discriminate.
    destruct (N.compare_spec (N_of_ascii "2") (N_of_ascii d)); try done;
      apply N.compare_gt_iff; lia. }
  by rewrite Hgt in Hle.
Qed.

(** Office hours from "9:00": closed on a Wednesday at 10:30. *)
Lemma schedule_unpadded_start_witness :
  scheduleActiveAt unpadded_hours (Example.wall_clock 0) = false.
Proof.
  apply (schedule_unpadded_start unpadded_hours "9"%char ":00" (Example.wall_clock 0)).
  - reflexivity.
  - reflexivity.
  - simpl. lia.
Defined.

(** ** Managing geofences *)

Lemma head_filter_Some {A} (f : A -> bool) (l : list A) (x : A) :
  head (List.filter f l) = Some x -> In x l /\ f x = true.
Proof.
  intros Hh. apply filter_In.
  destruct (List.filter f l) as [|y ys]; [done|]. injection Hh as ->. by left.
Qed.

Lemma head_filter_None {A} (f : A -> bool) (l : list A) :
  head (List.filter f l) = None -> forall x, In x l -> f x = false.
Proof.
  intros Hh x Hx. destruct (f x) eqn:E; [|done].
  assert (In x (List.filter f l)) as Hin by (by apply filter_In).
  destruct (List.filter f l); [done|discriminate].
Qed.

Lemma existsb_id_false (l : list Geofence.t) (id : string) :
  existsb (fun g => String.eqb (Geofence.id g) id) l = false <->
  ~ In id (map Geofence.id l).
Proof.
  split.
  - intros He Hin. apply in_map_iff in Hin as (g & <- & Hg).
    assert (existsb (fun g0 => String.eqb (Geofence.id g0) (Geofence.id g)) l = true)
      by (apply existsb_exists; exists g; split; [done|apply String.eqb_refl]).
    congruence.
  - intros Hnin. destruct (existsb _ l) eqn:E; [|done].
    apply existsb_exists in E as (g & Hg & Heq). apply String.eqb_eq in Heq.
    exfalso. apply Hnin. rewrite <- Heq. by apply in_map.
Qed.

(** ** Creating *)

Lemma generateId_run (w : World) :
  exists id,
    generateId w = (id, set_drawn (drawn w + 21) w) /\ String.length id = 21.
Proof.
  exists (string_of_list_ascii (map (pick idAlphabet) (randomBytes 21 w).1)).
  split; [reflexivity|].
  by rewrite string_of_list_length, length_map, randomBytes_length.
Qed.

Lemma insert_geofences_run (row : Geofence.t) (w : World) :
  let w1 := set_journal (journal w ++ [INSERT tbl_geofences])
              (set_ticks (S (S (ticks w))) w) in
  (In (Geofence.id row) (map Geofence.id (geofences w)) /\
     insert_geofences row w = (false, w1)) \/
  (~ In (Geofence.id row) (map Geofence.id (geofences w)) /\
     insert_geofences row w = (true, set_geofences (geofences w ++ [row]) w1)).
Proof.
  intros w1. unfold insert_geofences, bind, new_Date, issue.
  cbn [fst snd ticks journal set_ticks set_journal geofences].
  change (set_journal (journal w ++ [INSERT tbl_geofences])
            (set_ticks (S (S (ticks w))) (set_ticks (S (ticks w)) w))) with w1.
  destruct (existsb _ (geofences w)) eqn:E.
  - left. split; [|done].
    destruct (in_dec string_dec (Geofence.id row) (map Geofence.id (geofences w)));
      [done|]. apply existsb_id_false in n. congruence.
  - right. split; [|done]. by apply existsb_id_false.
Qed.

Lemma storeGeofence_cases (user : User.t) (body : CreateBody.t) (w : World) :
  let id := (generateId w).1 in
  let w2 := set_journal (journal w ++ [INSERT tbl_geofences])
              (set_ticks (S (S (ticks w))) (set_drawn (drawn w + 21) w)) in
  let row := newGeofence user id body in
  String.length id = 21 /\
  ((In id (map Geofence.id (geofences w)) /\
    storeGeofence user body w = (reply_error 500 "Failed to create geofence", w2)) \/
   (~ In id (map Geofence.id (geofences w)) /\
    storeGeofence user body w
      = (reply_geofence 201 (Some "Geofence created successfully") row,
         set_geofences (geofences w ++ [row]) w2))).
Proof.
  destruct (generateId_run w) as (id & Eid & Hlen).
  cbv zeta. unfold storeGeofence, bind. rewrite Eid. cbn [fst]. split; [done|].
  destruct (insert_geofences_run (newGeofence user id body) (set_drawn (drawn w + 21) w))
    as [[Hin ->]|[Hnin ->]]; [left|right]; done.
Qed.

(** What [createGeofence] does, case by case. *)
Lemma createGeofence_cases (user : User.t) (body : CreateBody.t) (w : World) :
  let wq := if truthy_str (CreateBody.childId body)
            then set_journal (journal w ++ [SELECT tbl_users]) w else w in
  let own := is_child_of user (CreateBody.childId body) in
  (truthy_str (User.familyId user) = false /\
   createGeofence user body w
     = (reply_error 400 "You must be in a family to create geofences", w)) \/
  (truthy_str (User.familyId user) = true /\
   truthy_str (CreateBody.childId body) = true /\
   (forall u, In u (users w) -> own u = false) /\
   createGeofence user body w
     = (reply_error 403 "Child not found or not your child", wq)) \/
  (truthy_str (User.familyId user) = true /\
   (truthy_str (CreateBody.childId body) = true -> exists u, In u (users w) /\ own u = true) /\
   createGeofence user body w = storeGeofence user body wq).
Proof.
  intros wq own. unfold createGeofence.
  destruct (truthy_str (User.familyId user)) eqn:Efam; cbn [negb]; [|by left].
  right. subst wq.
  destruct (truthy_str (CreateBody.childId body)) eqn:Echild.
  - unfold bind, findFirst_users, bind, issue. fold own.
    set (w1 := set_journal (journal w ++ [SELECT tbl_users]) w).
    change (users w1) with (users w).
    destruct (head (List.filter own (users w))) as [u|] eqn:Ehead.
    + right. split; [done|]. split; [|done].
      intros _. apply head_filter_Some in Ehead. by exists u.
    + left. split; [done|]. split; [done|]. split; [|done]. by apply head_filter_None.
  - right. split; [done|]. split; [done|]. done.
Qed.

Lemma generateId_same (w1 w2 : World) :
  entropy w1 = entropy w2 -> drawn w1 = drawn w2 -> (generateId w1).1 = (generateId w2).1.
Proof.
  intros He Hd. unfold generateId, bind, randomBytes, ret. cbn [fst]. by rewrite He, Hd.
Qed.

(** X8. [POST /] refuses without storing anything: a caller without a
    family gets 400 and the world is untouched; a [childId] that is not the
    id of one of the caller's own children gets 403 after one look at the
    user table, with no id drawn and no row inserted. *)
Theorem createGeofence_refuses (user : User.t) (body : CreateBody.t) (w : World) :
  (User.familyId user = None ->
   createGeofence user body w
     = (reply_error 400 "You must be in a family to create geofences", w)) /\
  (forall fid cid,
     User.familyId user = Some fid -> fid <> "" ->
     CreateBody.childId body = Some cid -> cid <> "" ->
     (forall u, In u (users w) -> User.id u = cid -> User.parentId u <> Some (User.id user)) ->
     let r := createGeofence user body w in
     r.1 = reply_error 403 "Child not found or not your child" /\
     geofences r.2 = geofences w /\
     geofenceEvents r.2 = geofenceEvents w /\
     users r.2 = users w /\
     drawn r.2 = drawn w /\
     journal r.2 = journal w ++ [SELECT tbl_users]).
Proof.
  split.
  - intros Hnone. unfold createGeofence. by rewrite Hnone.
  - intros fid cid Hfam Hne Hcid Hcne Hnot r. subst r.
    assert (truthy_str (CreateBody.childId body) = true) as Hchild.
    { rewrite Hcid. simpl. by rewrite (proj2 (String.eqb_neq cid "")). }
    destruct (createGeofence_cases user body w)
      as [[Hf _]|[(_ & _ & _ & ->)|(_ & Hown & _)]].
    + rewrite Hfam in Hf. simpl in Hf. by rewrite (proj2 (String.eqb_neq fid "")) in Hf.
    + by rewrite Hchild.
    + destruct (Hown Hchild) as (u & Hu & Hou). unfold is_child_of in Hou.
      apply andb_prop in Hou as [Hid Hpar]. apply bool_decide_eq_true in Hid, Hpar.
      rewrite Hcid in Hid. injection Hid as Hid. by destruct (Hnot u Hu Hid).
Qed.

(** A newcomer without a family, and mum naming the child of nobody. *)
Lemma createGeofence_refuses_witness :
  createGeofence Manage.newcomer (Manage.home_body None) (Manage.world [] [])
    = (reply_error 400 "You must be in a family to create geofences", Manage.world [] []) /\
  (createGeofence Manage.mum (Manage.home_body (Some "loner")) (Manage.world [] [])).1
    = reply_error 403 "Child not found or not your child".
Proof.
  destruct (createGeofence_refuses Manage.newcomer (Manage.home_body None) (Manage.world [] []))
    as [Hnone _].
  destruct (createGeofence_refuses Manage.mum (Manage.home_body (Some "loner"))
              (Manage.world [] [])) as [_ Hchild].
  split; [by apply Hnone|].
  apply (Hchild "fam" "loner"); try done.
  intros u Hu Hid. simpl in Hu.
  repeat (destruct Hu as [<-|Hu]; [done|]). done.
Defined.

(** X9. When the caller is in a family, the [childId], if any, names one of
    the caller's own children, and the id drawn is not taken, [POST /]
    answers 201 with the stored row and appends exactly that row to the
    geofence table: it carries a 21-character id, the caller as [userId],
    the caller's family, [isActive = true], the notification flags of the
    request defaulting to [true], and a [childId] that is null unless the
    request named a child.  Events and users are untouched.  If the id is
    taken the insert fails, the answer is 500 and nothing is stored. *)
Theorem createGeofence_stores (user : User.t) (body : CreateBody.t) (w : World) (fid : string) :
  User.familyId user = Some fid -> fid <> "" ->
  (truthy_str (CreateBody.childId body) = true ->
     exists u, In u (users w) /\ Some (User.id u) = CreateBody.childId body /\
               User.parentId u = Some (User.id user)) ->
  let id := (generateId w).1 in
  let row := newGeofence user id body in
  let r := createGeofence user body w in
  geofenceEvents r.2 = geofenceEvents w /\
  users r.2 = users w /\
  (~ In id (map Geofence.id (geofences w)) ->
     r.1 = reply_geofence 201 (Some "Geofence created successfully") row /\
     geofences r.2 = geofences w ++ [row] /\
     String.length (Geofence.id row) = 21 /\
     Geofence.userId row = User.id user /\
     Geofence.familyId row = fid /\
     Geofence.isActive row = Some true /\
     Geofence.notifyEnter row = Some (default true (CreateBody.notifyEnter body)) /\
     Geofence.notifyExit row = Some (default true (CreateBody.notifyExit body)) /\
     Geofence.childId row
       = (if truthy_str (CreateBody.childId body) then CreateBody.childId body else None)) /\
  (In id (map Geofence.id (geofences w)) ->
     r.1 = reply_error 500 "Failed to create geofence" /\
     geofences r.2 = geofences w).
Proof.
  intros Hfam Hne Hown id row r.
  assert (truthy_str (User.familyId user) = true) as Htruthy.
  { rewrite Hfam. simpl. by rewrite (proj2 (String.eqb_neq fid "")). }
  set (wq := if truthy_str (CreateBody.childId body)
             then set_journal (journal w ++ [SELECT tbl_users]) w else w).
  assert (r = storeGeofence user body wq) as Hr.
  { subst r. destruct (createGeofence_cases user body w)
      as [[Hf _]|[(_ & Hc & Hnone & _)|(_ & _ & ->)]]; [congruence| |done].
    destruct (Hown Hc) as (u & Hu & Hid & Hpar).
    specialize (Hnone u Hu). unfold is_child_of in Hnone.
    by rewrite !bool_decide_eq_true_2 in Hnone. }
  assert (geofences wq = geofences w /\ geofenceEvents wq = geofenceEvents w /\
          users wq = users w /\ entropy wq = entropy w /\ drawn wq = drawn w)
    as (Hg & He & Hu & Hen & Hd)
    by (subst wq; by destruct (truthy_str (CreateBody.childId body))).
  destruct (storeGeofence_cases user body wq) as (Hlen & Hcases).
  rewrite (generateId_same wq w Hen Hd) in Hlen, Hcases. fold id in Hlen, Hcases.
  cbv zeta in Hcases. rewrite Hg in Hcases. rewrite Hr. clearbody id.
  destruct Hcases as [[Hin ->]|[Hnin ->]]; cbn [fst snd]; cbn; rewrite ?He, ?Hu.
  - split; [done|]. split; [done|]. split; [done|]. intros _. by rewrite Hg.
  - split; [done|]. split; [done|]. split; [|done]. intros _.
    rewrite Hfam. repeat split; try done.
Qed.

(** Mum creates "Home" for her kid in an empty table. *)
Lemma createGeofence_stores_witness :
  let w := Manage.world [] [] in
  let body := Manage.home_body (Some "kid") in
  let row := newGeofence Manage.mum (generateId w).1 body in
  let r := createGeofence Manage.mum body w in
  r.1 = reply_geofence 201 (Some "Geofence created successfully") row /\
  geofences r.2 = [row] /\
  Geofence.childId row = Some "kid" /\
  Geofence.isActive row = Some true.
Proof.
  intros w body row r.
  destruct (createGeofence_stores Manage.mum body w "fam") as (_ & _ & Hok & _).
  - reflexivity.
  - discriminate.
  - intros _. exists Example.kid. split; [simpl; tauto|]. split; reflexivity.
  - destruct Hok as (Hr & Hg & _ & _ & _ & Hact & _ & _ & Hchild); [by intros []|].
    split; [exact Hr|]. split; [exact Hg|]. split; [exact Hchild|exact Hact].
Defined.

Lemma createGeofence_tables (user : User.t) (body : CreateBody.t) (w : World) :
  let r := createGeofence user body w in
  geofenceEvents r.2 = geofenceEvents w /\
  users r.2 = users w /\
  clock r.2 = clock w /\
  ticks w <= ticks r.2 /\
  (geofences r.2 = geofences w \/
   exists id, ~ In id (map Geofence.id (geofences w)) /\
     r.1 = reply_geofence 201 (Some "Geofence created successfully")
             (newGeofence user id body) /\
     truthy_str (User.familyId user) = true /\
     geofences r.2 = geofences w ++ [newGeofence user id body]).
Proof.
  intros r. subst r.
  destruct (createGeofence_cases user body w)
    as [[_ ->]|[(_ & _ & _ & ->)|(Hfam & _ & ->)]];
    try (destruct (truthy_str (CreateBody.childId body)); repeat split; try done; by left).
  set (wq := if truthy_str (CreateBody.childId body)
             then set_journal (journal w ++ [SELECT tbl_users]) w else w).
  assert (geofences wq = geofences w /\ geofenceEvents wq = geofenceEvents w /\
          users wq = users w /\ clock wq = clock w /\ ticks wq = ticks w)
    as (Hg & He & Hu & Hc & Ht)
    by (subst wq; by destruct (truthy_str (CreateBody.childId body))).
  destruct (storeGeofence_cases user body wq) as (_ & Hcases). cbv zeta in Hcases.
  set (id := (generateId wq).1) in *. clearbody id. rewrite Hg in Hcases.
  destruct Hcases as [[Hin ->]|[Hnin ->]]; cbn; rewrite ?He, ?Hu, ?Hc, ?Ht, ?Hg.
  - repeat split; try done; [lia|by left].
  - repeat split; try done; [lia|]. right. by exists id.
Qed.

Lemma createGeofence_primary_key (user : User.t) (body : CreateBody.t) (w : World) :
  primary_key w -> primary_key (createGeofence user body w).2.
Proof.
  intros Hpk.
  destruct (createGeofence_tables user body w) as (_ & _ & _ & _ & Hg).
  unfold primary_key in *.
  destruct Hg as [->|(id & Hnin & _ & _ & ->)]; [done|].
  rewrite map_app. apply List.NoDup_app; [done| |].
  - apply List.NoDup_cons; [by intros []|apply List.NoDup_nil].
  - intros x Hx [<-|[]]. done.
Qed.

(** X10. [POST /] keeps the store well formed, whatever it answers: the
    ids of the geofence table stay distinct (an insert with a taken id is
    refused), no stored [childId] is the empty string, and every event
    still refers to a geofence of the table. *)
Theorem createGeofence_well_formed (user : User.t) (body : CreateBody.t) (w : World) :
  well_formed w -> well_formed (createGeofence user body w).2.
Proof.
  intros (Hpk & Hstored & Href).
  destruct (createGeofence_tables user body w) as (He & _ & _ & _ & Hg).
  unfold well_formed, primary_key, childIds_stored, events_reference in *.
  rewrite He.
  destruct Hg as [->|(id & Hnin & _ & _ & ->)]; [done|].
  split; [|split].
  - rewrite map_app. apply List.NoDup_app; [done| |].
    + apply List.NoDup_cons; [by intros []|apply List.NoDup_nil].
    + intros x Hx [<-|[]]. done.
  - intros g Hg. apply in_app_iff in Hg as [Hg|[<-|[]]]; [by apply Hstored|].
    apply stored_childId_named.
  - intros e Hin. destruct (Href e Hin) as (g & Hg & Hid).
    exists g. split; [|done]. apply in_app_iff. by left.
Qed.

Ltac well_formed_example :=
  split; [distinct_ids|split];
  [intros g Hg; simpl in Hg; repeat (destruct Hg as [<-|Hg]; [discriminate|]); done
  |intros e He; simpl in He; try done].

(** Mum adds "Home" to a table that already holds "Town". *)
Lemma createGeofence_well_formed_witness :
  well_formed
    (createGeofence Manage.mum (Manage.home_body None) (Manage.world [Example.town] [])).2.
Proof.
  apply createGeofence_well_formed. well_formed_example.
Defined.

Section CreateThenCheck.
Context `{HostMath}.

End CreateThenCheck.


(** ** Looking a geofence up by id *)

Lemma find_by_id (w : World) (g : Geofence.t) :
  primary_key w -> In g (geofences w) ->
  head (List.filter (fun x => String.eqb (Geofence.id x) (Geofence.id g)) (geofences w))
    = Some g.
Proof.
  intros Hpk Hin.
  destruct (head (List.filter _ (geofences w))) as [x|] eqn:E.
  - apply head_filter_Some in E as [Hx Hid]. apply String.eqb_eq in Hid.
    f_equal. by apply (NoDup_map_eq Geofence.id (geofences w)).
  - apply head_filter_None with (x := g) in E; [|done].
    by rewrite String.eqb_refl in E.
Qed.

Lemma find_by_id_none (w : World) (id : string) :
  ~ In id (map Geofence.id (geofences w)) ->
  head (List.filter (fun x => String.eqb (Geofence.id x) id) (geofences w)) = None.
Proof.
  intros Hnin. rewrite filter_none; [done|].
  intros x Hx. apply String.eqb_neq. intros <-. apply Hnin. by apply in_map.
Qed.

(** What [updateGeofence] and [deleteGeofence] do, by what the lookup finds. *)
Lemma updateGeofence_cases (user : User.t) (id : string) (body : PatchBody.t) (w : World) :
  let w1 := set_journal (journal w ++ [SELECT tbl_geofences]) w in
  let found := head (List.filter (fun g => String.eqb (Geofence.id g) id) (geofences w)) in
  updateGeofence user id body w
    = match found with
      | None => (reply_error 404 "Geofence not found", w1)
      | Some g =>
          if String.eqb (Geofence.userId g) (User.id user)
          then (reply_geofence 200 (Some "Geofence updated successfully") (apply_updates body g),
                set_geofences
                  (map (fun x => if String.eqb (Geofence.id x) id
                                 then apply_updates body x else x) (geofences w))
                  (set_journal (journal w1 ++ [UPDATE tbl_geofences])
                     (set_ticks (S (ticks w)) w1)))
          else (reply_error 403 "Only the creator can modify this geofence", w1)
      end.
Proof.
  cbv zeta. unfold updateGeofence, bind, findFirst_geofences, bind, issue.
  cbn [fst snd geofences set_journal].
  destruct (head _) as [g|]; [|done].
  by destruct (String.eqb (Geofence.userId g) (User.id user)).
Qed.

Lemma deleteGeofence_cases (user : User.t) (id : string) (w : World) :
  let w1 := set_journal (journal w ++ [SELECT tbl_geofences]) w in
  let found := head (List.filter (fun g => String.eqb (Geofence.id g) id) (geofences w)) in
  deleteGeofence user id w
    = match found with
      | None => (reply_error 404 "Geofence not found", w1)
      | Some g =>
          if String.eqb (Geofence.userId g) (User.id user)
          then (reply_message 200 "Geofence deleted successfully",
                set_geofences
                  (List.filter (fun x => negb (String.eqb (Geofence.id x) id)) (geofences w))
                  (set_journal
                     (journal w1 ++ [DELETE tbl_geofenceEvents; DELETE tbl_geofences])
                     (set_geofenceEvents
                        (List.filter
                           (fun e => negb (String.eqb (GeofenceEvent.geofenceId e) id))
                           (geofenceEvents w)) w1)))
          else (reply_error 403 "Only the creator can delete this geofence", w1)
      end.
Proof.
  cbv zeta. unfold deleteGeofence, bind, findFirst_geofences, bind, issue.
  cbn [fst snd geofences set_journal].
  destruct (head _) as [g|]; [|done].
  destruct (String.eqb (Geofence.userId g) (User.id user)); [|done].
  unfold delete_geofenceEvents, delete_geofences, bind, issue, ret.
  cbn. by rewrite <- app_assoc.
Qed.

(** X12. Only its creator changes or deletes a geofence.  [PATCH /:id] and
    [DELETE /:id] answer 404 for an id that is not in the table and 403 for a
    geofence created by somebody else, another parent of the same family
    included; in both cases the geofence, event and user tables are left as
    they were. *)
Theorem only_creator_mutates (user : User.t) (id : string) (body : PatchBody.t) (w : World) :
  let p := updateGeofence user id body w in
  let d := deleteGeofence user id w in
  (~ In id (map Geofence.id (geofences w)) ->
     p.1 = reply_error 404 "Geofence not found" /\
     d.1 = reply_error 404 "Geofence not found" /\
     geofences p.2 = geofences w /\ geofenceEvents p.2 = geofenceEvents w /\
     geofences d.2 = geofences w /\ geofenceEvents d.2 = geofenceEvents w) /\
  (forall g,
     primary_key w -> In g (geofences w) -> Geofence.id g = id ->
     Geofence.userId g <> User.id user ->
     p.1 = reply_error 403 "Only the creator can modify this geofence" /\
     d.1 = reply_error 403 "Only the creator can delete this geofence" /\
     geofences p.2 = geofences w /\ geofenceEvents p.2 = geofenceEvents w /\
     geofences d.2 = geofences w /\ geofenceEvents d.2 = geofenceEvents w).
Proof.
  intros p d. subst p d. rewrite updateGeofence_cases, deleteGeofence_cases. cbv zeta.
  split.
  - intros Hnin. by rewrite find_by_id_none.
  - intros g Hpk Hin <- Hother. rewrite find_by_id by done.
    by rewrite (proj2 (String.eqb_neq _ _) Hother).
Qed.

(** The aunt, a parent of the same family, tries her hand at mum's "Town". *)
Lemma only_creator_mutates_witness :
  let w := Manage.world [Example.town; Example.campus] [] in
  (updateGeofence Manage.aunt "g-town" Manage.switch_off w).1
    = reply_error 403 "Only the creator can modify this geofence" /\
  (deleteGeofence Manage.aunt "g-town" w).1
    = reply_error 403 "Only the creator can delete this geofence" /\
  (deleteGeofence Manage.mum "g-gone" w).1 = reply_error 404 "Geofence not found".
Proof.
  intros w.
  destruct (only_creator_mutates Manage.aunt "g-town" Manage.switch_off w) as [_ Hother].
  destruct (only_creator_mutates Manage.mum "g-gone" Manage.switch_off w) as [Hgone _].
  destruct (Hother Example.town) as (Hp & Hd & _); [distinct_ids|simpl; tauto|done|done|].
  destruct Hgone as (_ & Hd' & _); [simpl; intuition discriminate|].
  split; [exact Hp|]. split; [exact Hd|exact Hd'].
Defined.

(** ** Changing a geofence *)

Lemma map_update_proj {B} (f : Geofence.t -> B) (id : string) (body : PatchBody.t)
    (l : list Geofence.t) :
  (forall x, f (apply_updates body x) = f x) ->
  map f (map (fun x => if String.eqb (Geofence.id x) id then apply_updates body x else x) l)
    = map f l.
Proof.
  intros Hf. rewrite map_map. apply map_ext. intros x.
  by destruct (String.eqb (Geofence.id x) id).
Qed.



(** X14. [PATCH /:id] keeps the store well formed, whatever it answers. *)
Theorem updateGeofence_well_formed (user : User.t) (id : string) (body : PatchBody.t)
    (w : World) :
  well_formed w -> well_formed (updateGeofence user id body w).2.
Proof.
  intros (Hpk & Hstored & Href). rewrite updateGeofence_cases. cbv zeta.
  destruct (head _) as [g|]; [|done].
  destruct (String.eqb (Geofence.userId g) (User.id user)); [|done].
  unfold well_formed, primary_key, childIds_stored, events_reference in *.
  cbn [snd geofences geofenceEvents set_geofences set_journal set_ticks].
  split; [|split].
  - by rewrite map_update_proj.
  - intros x Hx. apply in_map_iff in Hx as (y & <- & Hy).
    destruct (String.eqb (Geofence.id y) id); [|by apply Hstored].
    cbn. by apply Hstored.
  - intros e He. destruct (Href e He) as (x & Hx & Hid).
    exists (if String.eqb (Geofence.id x) id then apply_updates body x else x).
    split; [|by destruct (String.eqb (Geofence.id x) id)].
    apply in_map_iff. by exists x.
Qed.

Lemma updateGeofence_well_formed_witness :
  well_formed
    (updateGeofence Manage.mum "g-town" Manage.switch_off
       (Manage.world [Example.town; Example.campus] [])).2.
Proof.
  apply updateGeofence_well_formed. well_formed_example.
Defined.

Section SwitchOff.
Context `{HostMath}.

(** X15. Once its creator has patched a geofence to [isActive = false], no
    [POST /check] evaluates it: whoever asks and from wherever, the call
    reports and stores no event for it, and its name, if no other geofence
    bears it, is not in [currentZones]. *)
Theorem deactivate_then_check (owner caller : User.t) (body : PatchBody.t) (w : World)
    (g : Geofence.t) (fid : string) (latitude longitude : float) :
  primary_key w -> In g (geofences w) -> Geofence.userId g = User.id owner ->
  PatchBody.isActive body = Some false ->
  User.familyId caller = Some fid -> fid <> "" ->
  let w' := (updateGeofence owner (Geofence.id g) body w).2 in
  let g' := apply_updates body g in
  let r := check caller latitude longitude w' in
  In g' (geofences w') /\
  ~ In g' (selectGeofences caller fid w').1 /\
  eventsFor g' r.1 = [] /\
  rowsFor g' w' r.2 = [] /\
  (unique_name w' g' -> ~ In (Geofence.name g') (currentZones (body_of r.1))).
Proof.
  intros Hpk Hin Hown Hoff Hfam Hne w' g' r.
  assert (geofences w'
          = map (fun x => if String.eqb (Geofence.id x) (Geofence.id g)
                          then apply_updates body x else x) (geofences w)) as Hg.
  { unfold w'. rewrite updateGeofence_cases. cbv zeta.
    rewrite find_by_id by done. by rewrite Hown, String.eqb_refl. }
  assert (primary_key w') as Hpk'.
  { unfold primary_key. by rewrite Hg, map_update_proj. }
  assert (In g' (geofences w')) as Hin'.
  { rewrite Hg. apply in_map_iff. exists g. by rewrite String.eqb_refl. }
  assert (~ In g' (selectGeofences caller fid w').1) as Hout.
  { intros Hsel. destruct (selectGeofences_run caller fid w') as (n & _ & _ & _ & Hact).
    destruct (Hact g' Hsel) as (_ & _ & Hon & _).
    unfold g' in Hon. cbn in Hon. by rewrite Hoff in Hon. }
  destruct (check_skips caller latitude longitude w' fid g' Hfam Hne Hpk' Hin' Hout)
    as (Hev & Hrows & zs & _ & _ & _ & Hname).
  done.
Qed.
End SwitchOff.

(** "Town" switched off: the kid at its centre hears nothing of it. *)
Lemma deactivate_then_check_witness :
  let w' := (updateGeofence Manage.mum "g-town" Manage.switch_off
               (Manage.world [Example.town; Example.campus] [])).2 in
  let r := @check RefMath.ref Example.kid 40 (-74) w' in
  eventsFor Example.town r.1 = [] /\ ~ In "Town" (currentZones (body_of r.1)).
Proof.
  intros w' r.
  destruct (@deactivate_then_check RefMath.ref Manage.mum Example.kid Manage.switch_off
              (Manage.world [Example.town; Example.campus] []) Example.town "fam"
              40%float (-74)%float) as (_ & _ & Hev & _ & Hname);
    [distinct_ids|simpl; tauto|reflexivity|reflexivity|reflexivity|discriminate|].
  split; [exact Hev|].
  apply Hname. intros z Hz Hn.
  vm_compute in Hz. destruct Hz as [<-|[<-|[]]]; [reflexivity|discriminate].
Defined.

(** ** Deleting a geofence *)

Lemma deleteGeofence_tables (user : User.t) (id : string) (w : World) :
  let d := deleteGeofence user id w in
  users d.2 = users w /\
  ((geofences d.2 = geofences w /\ geofenceEvents d.2 = geofenceEvents w /\
    reply_status d.1 <> 200%Z) \/
   (d.1 = reply_message 200 "Geofence deleted successfully" /\
    geofences d.2
      = List.filter (fun x => negb (String.eqb (Geofence.id x) id)) (geofences w) /\
    geofenceEvents d.2
      = List.filter (fun e => negb (String.eqb (GeofenceEvent.geofenceId e) id))
          (geofenceEvents w))).
Proof.
  cbv zeta. rewrite deleteGeofence_cases. cbv zeta.
  destruct (head _) as [g|]; [|split; [done|by left]].
  destruct (String.eqb (Geofence.userId g) (User.id user)); split; try done;
    [by right|by left].
Qed.

(** X16. When its creator deletes a geofence, the answer is 200, the
    geofence leaves the table and its events leave the log with it: no row of
    either table refers to the id any more, and every geofence and every
    event with another id stays, in its place. *)
Theorem deleteGeofence_cascade (user : User.t) (w : World) (g : Geofence.t) :
  primary_key w -> In g (geofences w) -> Geofence.userId g = User.id user ->
  let d := deleteGeofence user (Geofence.id g) w in
  d.1 = reply_message 200 "Geofence deleted successfully" /\
  users d.2 = users w /\
  sublist (geofences d.2) (geofences w) /\
  sublist (geofenceEvents d.2) (geofenceEvents w) /\
  (forall x, In x (geofences d.2) <->
     In x (geofences w) /\ Geofence.id x <> Geofence.id g) /\
  (forall e, In e (geofenceEvents d.2) <->
     In e (geofenceEvents w) /\ GeofenceEvent.geofenceId e <> Geofence.id g).
Proof.
  intros Hpk Hin Hown d. subst d. rewrite deleteGeofence_cases. cbv zeta.
  rewrite find_by_id by done. rewrite Hown, String.eqb_refl.
  cbn [fst snd geofences geofenceEvents users set_geofences set_journal set_geofenceEvents].
  split; [done|]. split; [done|].
  split; [apply filter_sublist|]. split; [apply filter_sublist|]. split.
  - intros x. rewrite filter_In, negb_true_iff, String.eqb_neq. tauto.
  - intros e. rewrite filter_In, negb_true_iff, String.eqb_neq. tauto.
Qed.

(** Mum deletes "Campus" after the four reports of the example: the log
    keeps the one row about "Town". *)
Lemma deleteGeofence_cascade_witness :
  let w := Manage.world [Example.town; Example.campus]
             (geofenceEvents Example.after_four_reports) in
  let d := deleteGeofence Manage.mum "g-campus" w in
  d.1 = reply_message 200 "Geofence deleted successfully" /\
  map Geofence.id (geofences d.2) = ["g-town"] /\
  map GeofenceEvent.geofenceId (geofenceEvents d.2) = ["g-town"].
Proof.
  intros w d.
  destruct (deleteGeofence_cascade Manage.mum w Example.campus) as (Hr & _);
    [distinct_ids|simpl; tauto|reflexivity|].
  split; [exact Hr|]. vm_compute. split; reflexivity.
Defined.

(** X17. [DELETE /:id] keeps the store well formed, whatever it answers;
    in particular the cascade leaves no event that refers to a geofence
    that is gone. *)
Theorem deleteGeofence_well_formed (user : User.t) (id : string) (w : World) :
  well_formed w -> well_formed (deleteGeofence user id w).2.
Proof.
  intros (Hpk & Hstored & Href).
  destruct (deleteGeofence_tables user id w) as (_ & [(Hg & He & _)|(_ & Hg & He)]);
    unfold well_formed, primary_key, childIds_stored, events_reference in *;
    rewrite Hg, He; [done|].
  split; [|split].
  - by apply filter_map_NoDup.
  - intros x Hx. apply filter_In in Hx as [Hx _]. by apply Hstored.
  - intros e Hin. apply filter_In in Hin as [Hin Hne].
    destruct (Href e Hin) as (x & Hx & Hid). exists x. split; [|done].
    apply filter_In. split; [done|]. by rewrite Hid.
Qed.

Lemma deleteGeofence_well_formed_witness :
  well_formed
    (deleteGeofence Manage.mum "g-town" (Manage.world [Example.town; Example.campus] [])).2.
Proof.
  apply deleteGeofence_well_formed. well_formed_example.
Defined.

Section DeleteThenCheck.
Context `{HostMath}.

(** X18. After its creator has deleted a geofence, [POST /check] reports
    and stores no event for its id, whoever asks and from wherever, and its
    name, if no other geofence bore it, is not in [currentZones]. *)
Theorem delete_then_check (owner caller : User.t) (w : World) (g : Geofence.t)
    (fid : string) (latitude longitude : float) :
  primary_key w -> In g (geofences w) -> Geofence.userId g = User.id owner ->
  User.familyId caller = Some fid -> fid <> "" ->
  let w' := (deleteGeofence owner (Geofence.id g) w).2 in
  let r := check caller latitude longitude w' in
  eventsFor g r.1 = [] /\
  rowsFor g w' r.2 = [] /\
  (unique_name w g -> ~ In (Geofence.name g) (currentZones (body_of r.1))).
Proof.
  intros Hpk Hin Hown Hfam Hne w' r.
  destruct (deleteGeofence_tables owner (Geofence.id g) w) as (_ & Hcases).
  fold w' in Hcases.
  assert (forall x, In x (geofences w') ->
            In x (geofences w) /\ Geofence.id x <> Geofence.id g) as Hleft.
  { destruct Hcases as [(_ & _ & Hst)|(_ & -> & _)].
    - exfalso. apply Hst. unfold w'. rewrite deleteGeofence_cases. cbv zeta.
      rewrite find_by_id by done. by rewrite Hown, String.eqb_refl.
    - intros x Hx. apply filter_In in Hx as [Hx Hid].
      by apply negb_true_iff, String.eqb_neq in Hid. }
  destruct (check_outcome caller latitude longitude w' fid Hfam Hne) as (_ & Hz & Hev).
  fold r in Hz, Hev. destruct (Hev g) as [Hev1 Hev2].
  destruct (selectGeofences_run caller fid w') as (n & _ & _ & _ & Hact).
  assert (eventsFor g r.1 = []) as Hnone.
  { rewrite Hev1, decisions_absent; [done|].
    intros a Ha. apply Hleft. by apply Hact. }
  split; [done|]. split; [by rewrite Hev2|].
  intros Huniq Hname. rewrite Hz in Hname. unfold zonesOf in Hname.
  apply in_map_iff in Hname as (z & Hzn & Hzin). apply filter_In in Hzin as [Hzin _].
  destruct (Hleft z) as [Hzw Hzid]; [by apply Hact|].
  apply Hzid. by rewrite (Huniq z Hzw Hzn).
Qed.
End DeleteThenCheck.

(** "Town" deleted: the kid at its centre hears nothing of it. *)
Lemma delete_then_check_witness :
  let w' := (deleteGeofence Manage.mum "g-town"
               (Manage.world [Example.town; Example.campus] [])).2 in
  let r := @check RefMath.ref Example.kid 40 (-74) w' in
  eventsFor Example.town r.1 = [] /\ ~ In "Town" (currentZones (body_of r.1)).
Proof.
  intros w' r.
  destruct (@delete_then_check RefMath.ref Manage.mum Example.kid
              (Manage.world [Example.town; Example.campus] []) Example.town "fam"
              40%float (-74)%float) as (Hev & _ & Hname);
    [distinct_ids|simpl; tauto|reflexivity|reflexivity|discriminate|].
  split; [exact Hev|].
  apply Hname. intros z [<-|[<-|[]]]; [reflexivity|discriminate].
Defined.

(** ** Parents only *)



(** ** Reading geofences and their events *)

Lemma get_geofence_cases (user : User.t) (id : string) (w : World) :
  let w1 := set_journal (journal w ++ [SELECT tbl_geofences]) w in
  get_geofence user id w
    = match head (List.filter (fun g => String.eqb (Geofence.id g) id) (geofences w)) with
      | None => (reply_error 404 "Geofence not found", w1)
      | Some g =>
          if negb (bool_decide (Some (Geofence.familyId g) = User.familyId user))
          then (reply_error 403 "Access denied", w1)
          else (reply_geofence 200 None g, w1)
      end.
Proof.
  cbv zeta. unfold get_geofence, bind, findFirst_geofences, bind, issue.
  cbn [fst snd geofences set_journal].
  destruct (head _) as [g|]; [|done].
  by destruct (negb _).
Qed.

Lemma withNames_run (events : list GeofenceEvent.t) (w : World) :
  exists named w',
    withNames events w = (named, w') /\
    users w' = users w /\ geofences w' = geofences w /\
    geofenceEvents w' = geofenceEvents w /\
    map Named.event named = events /\
    forall n, In n named ->
      Named.childName n
        = match head (List.filter
                        (fun u => String.eqb (User.id u)
                                    (GeofenceEvent.childId (Named.event n))) (users w)) with
          | Some u => if String.eqb (User.displayName u) "" then "Unknown"
                      else User.displayName u
          | None => "Unknown"
          end.
Proof.
  revert w. induction events as [|e rest IH]; intros w.
  - exists [], w. by repeat split.
  - cbn [withNames]. unfold bind at 1. unfold findFirst_users, bind, issue.
    cbn [fst snd users set_journal].
    set (w1 := set_journal _ w).
    destruct (IH w1) as (named & w' & Hrun & Hu & Hg & He & Hmap & Hnames).
    unfold bind, ret. rewrite Hrun.
    eexists (_ :: named), w'. split; [reflexivity|].
    repeat split; try done.
    + cbn. by rewrite Hmap.
    + intros n [<-|Hn]; [done|]. by apply Hnames.
Qed.

Lemma get_geofence_events_cases (user : User.t) (id : string) (limit : option nat)
    (w : World) :
  let w1 := set_journal (journal w ++ [SELECT tbl_geofences]) w in
  let w2 := set_journal (journal w1 ++ [SELECT tbl_geofenceEvents]) w1 in
  let page :=
    firstn (events_limit limit)
      (orderBy_desc_timestamp
         (List.filter (fun e => String.eqb (GeofenceEvent.geofenceId e) id)
            (geofenceEvents w))) in
  get_geofence_events user id limit w
    = match head (List.filter (fun g => String.eqb (Geofence.id g) id) (geofences w)) with
      | None => (reply_error 404 "Geofence not found", w1)
      | Some g =>
          if negb (bool_decide (Some (Geofence.familyId g) = User.familyId user))
          then (reply_error 403 "Access denied", w1)
          else (reply_events 200 (withNames page w2).1, (withNames page w2).2)
      end.
Proof.
  cbv zeta. unfold get_geofence_events. unfold bind at 1.
  unfold findFirst_geofences, bind at 1, issue.
  cbn [fst snd geofences set_journal].
  destruct (head _) as [g|]; [|done].
  destruct (negb _); [done|].
  unfold findMany_geofenceEvents, bind, issue, ret.
  cbn [fst snd geofenceEvents set_journal].
  by destruct (withNames _ _).
Qed.

Lemma insert_desc_Permutation (e : GeofenceEvent.t) (l : list GeofenceEvent.t) :
  Permutation (insert_desc e l) (e :: l).
Proof.
  induction l as [|a l IH]; simpl; [done|].
  destruct (GeofenceEvent.timestamp a <=? GeofenceEvent.timestamp e)%Z; [done|].
  rewrite IH. apply perm_swap.
Qed.

Lemma orderBy_desc_Permutation (l : list GeofenceEvent.t) :
  Permutation (orderBy_desc_timestamp l) l.
Proof.
  unfold orderBy_desc_timestamp. induction l as [|a l IH]; simpl; [done|].
  by rewrite insert_desc_Permutation, IH.
Qed.

Lemma sorted_firstn_skipn (n : nat) (l : list GeofenceEvent.t) :
  StronglySorted not_older l ->
  forall x y, In x (firstn n l) -> In y (skipn n l) -> not_older x y.
Proof.
  intros Hs. revert n. induction Hs as [|a l Hs IH Hall]; intros [|n] x y; simpl; try done.
  intros [<-|Hx] Hy.
  - rewrite List.Forall_forall in Hall. apply Hall.
    rewrite <- (firstn_skipn n l). apply in_or_app. by right.
  - by apply (IH n).
Qed.

(** X20. [GET /:id] and [GET /:id/events] show a geofence to its family
    only.  Both answer 404 when no geofence has the id and 403 when the
    geofence belongs to another family, or the caller to none; they always
    agree on the status.  A 200 carries the geofence with that id, which is
    of the caller's family.  Neither route changes a table. *)
Theorem reads_are_family_only (user : User.t) (id : string) (limit : option nat)
    (w : World) :
  let r := get_geofence user id w in
  let e := get_geofence_events user id limit w in
  reply_status e.1 = reply_status r.1 /\
  (users r.2 = users w /\ geofences r.2 = geofences w /\
   geofenceEvents r.2 = geofenceEvents w) /\
  (users e.2 = users w /\ geofences e.2 = geofences w /\
   geofenceEvents e.2 = geofenceEvents w) /\
  (reply_status r.1 = 200%Z ->
   exists g, r.1 = reply_geofence 200 None g /\ In g (geofences w) /\
             Geofence.id g = id /\ User.familyId user = Some (Geofence.familyId g)) /\
  (reply_status r.1 = 404%Z <-> ~ In id (map Geofence.id (geofences w))) /\
  (forall g, primary_key w -> In g (geofences w) -> Geofence.id g = id ->
     reply_status r.1 = (if bool_decide (User.familyId user = Some (Geofence.familyId g))
                         then 200 else 403)%Z).
Proof.
  cbv zeta. rewrite get_geofence_cases, get_geofence_events_cases. cbv zeta.
  destruct (withNames_run
              (firstn (events_limit limit)
                 (orderBy_desc_timestamp
                    (List.filter (fun e => String.eqb (GeofenceEvent.geofenceId e) id)
                       (geofenceEvents w))))
              (set_journal
                 (journal (set_journal (journal w ++ [SELECT tbl_geofences]) w)
                    ++ [SELECT tbl_geofenceEvents])
                 (set_journal (journal w ++ [SELECT tbl_geofences]) w)))
    as (named & w' & Hrun & Hu & Hg & He & _).
  rewrite Hrun. cbn [fst snd].
  destruct (head _) as [g|] eqn:Hfound.
  - apply head_filter_Some in Hfound as [Hin Hid]. apply String.eqb_eq in Hid.
    assert (In id (map Geofence.id (geofences w))) as Hmem.
    { rewrite <- Hid. by apply in_map. }
    assert (forall g', primary_key w -> In g' (geofences w) -> Geofence.id g' = id ->
              g' = g) as Hsame.
    { intros g' Hpk Hin' Hid'.
      apply (NoDup_map_eq Geofence.id (geofences w)); try done. by rewrite Hid. }
    destruct (bool_decide (Some (Geofence.familyId g) = User.familyId user)) eqn:Hfam;
      cbn [negb fst snd reply_status].
    + apply bool_decide_eq_true in Hfam.
      repeat split; try done.
      * intros _. by exists g.
      * intros g' Hpk Hin' Hid'. rewrite (Hsame g' Hpk Hin' Hid').
        by rewrite bool_decide_eq_true_2.
    + apply bool_decide_eq_false in Hfam.
      repeat split; try done.
      intros g' Hpk Hin' Hid'. rewrite (Hsame g' Hpk Hin' Hid').
      rewrite bool_decide_eq_false_2; [done|]. intros Heq. apply Hfam. by rewrite Heq.
  - cbn [fst snd reply_status]. repeat split; try done.
    + intros _ Hmem. apply in_map_iff in Hmem as (x & Hx & Hxin).
      apply head_filter_None with (x := x) in Hfound; [|done].
      apply String.eqb_neq in Hfound. done.
    + intros g Hpk Hin Hid.
      apply head_filter_None with (x := g) in Hfound; [|done].
      apply String.eqb_neq in Hfound. done.
Qed.

(** The loner, who is in no family, asks for "Town". *)
Lemma reads_are_family_only_witness :
  reply_status (get_geofence Example.loner "g-town" (Manage.world [Example.town] [])).1
    = 403%Z.
Proof.
  destruct (reads_are_family_only Example.loner "g-town" None
              (Manage.world [Example.town] [])) as (_ & _ & _ & _ & _ & Hst).
  apply (Hst Example.town); [distinct_ids|simpl; tauto|reflexivity].
Defined.

(** X21. What a member of the family reads from [GET /:id/events]: the
    events of that geofence and no others, most recent first, cut after
    [limit] of them (50 if the request names none).  The page and the events
    left out are together the geofence's rows of the log, and no event left
    out is more recent than one on the page.  An event's [childName] is never
    empty: it is ["Unknown"] when no user has the child's id. *)
Theorem events_page (user : User.t) (w : World) (g : Geofence.t) (limit : option nat) :
  primary_key w -> In g (geofences w) ->
  User.familyId user = Some (Geofence.familyId g) ->
  let mine := List.filter (fun e => String.eqb (GeofenceEvent.geofenceId e) (Geofence.id g))
                (geofenceEvents w) in
  exists named rest,
    (get_geofence_events user (Geofence.id g) limit w).1 = reply_events 200 named /\
    length named = Nat.min (events_limit limit) (length mine) /\
    0 < events_limit limit /\
    (limit = None -> events_limit limit = 50) /\
    Permutation (map Named.event named ++ rest) mine /\
    StronglySorted not_older (map Named.event named) /\
    (forall n y, In n named -> In y rest -> not_older (Named.event n) y) /\
    (forall n, In n named ->
       Named.childName n <> "" /\
       ((forall u, In u (users w) -> User.id u <> GeofenceEvent.childId (Named.event n)) ->
        Named.childName n = "Unknown")).
Proof.
  intros Hpk Hin Hfam mine.
  rewrite get_geofence_events_cases. cbv zeta.
  rewrite find_by_id by done.
  rewrite bool_decide_eq_true_2 by done. cbn [negb fst snd].
  fold mine.
  set (w2 := set_journal _ _).
  destruct (withNames_run (firstn (events_limit limit) (orderBy_desc_timestamp mine)) w2)
    as (named & w' & Hrun & _ & _ & _ & Hmap & Hnames).
  rewrite Hrun. cbn [fst snd].
  exists named, (skipn (events_limit limit) (orderBy_desc_timestamp mine)).
  split; [done|]. split.
  { rewrite <- (length_map Named.event), Hmap, length_firstn, orderBy_desc_length. done. }
  split; [destruct limit as [[|n]|]; simpl; lia|].
  split; [by intros ->|].
  rewrite Hmap. split.
  { rewrite firstn_skipn. apply orderBy_desc_Permutation. }
  split.
  { pose proof (orderBy_desc_sorted mine) as Hs.
    rewrite <- (firstn_skipn (events_limit limit) (orderBy_desc_timestamp mine)) in Hs.
    revert Hs. generalize (firstn (events_limit limit) (orderBy_desc_timestamp mine)).
    intros l. induction l as [|a l IH]; [constructor|].
    simpl. intros Hs. apply StronglySorted_inv in Hs as [Hs Hall].
    constructor; [by apply IH|].
    apply List.Forall_forall. intros x Hx. rewrite List.Forall_forall in Hall.
    apply Hall. apply in_or_app. by left. }
  split.
  { intros n y Hn Hy.
    apply (sorted_firstn_skipn (events_limit limit) (orderBy_desc_timestamp mine));
      [apply orderBy_desc_sorted| |done].
    rewrite <- Hmap. by apply in_map. }
  intros n Hn. rewrite (Hnames n Hn). subst w2. cbn [users set_journal].
  destruct (head _) as [u|] eqn:Hu.
  - apply head_filter_Some in Hu as [Huin Huid]. apply String.eqb_eq in Huid.
    split.
    + destruct (String.eqb (User.displayName u) "") eqn:E; [done|].
      by apply String.eqb_neq in E.
    + intros Hnone. by destruct (Hnone u Huin).
  - done.
Qed.

(** Mum reads the two most recent events of "Campus" after the four
    reports of the example. *)
Lemma events_page_witness :
  exists named,
    (get_geofence_events Manage.mum "g-campus" (Some 2)
       (Manage.world [Example.town; Example.campus]
          (geofenceEvents Example.after_four_reports))).1 = reply_events 200 named /\
    length named = 2.
Proof.
  destruct (events_page Manage.mum
              (Manage.world [Example.town; Example.campus]
                 (geofenceEvents Example.after_four_reports))
              Example.campus (Some 2))
    as (named & rest & Hr & Hlen & _); [distinct_ids|simpl; tauto|reflexivity|].
  exists named. split; [exact Hr|]. rewrite Hlen. vm_compute. reflexivity.
Defined.

(** ** The answer of [POST /check] and the rows it stores *)

Section Answer.
Context `{HostMath}.

Lemma selectGeofences_NoDup (user : User.t) (fid : string) (w : World) :
  primary_key w -> List.NoDup (map Geofence.id (selectGeofences user fid w).1).
Proof.
  intros Hpk. destruct (selectGeofences_run user fid w) as (n & _ & _ & -> & _).
  apply activeGeofences_NoDup. unfold candidates, applicableGeofences.
  by do 2 apply filter_map_NoDup.
Qed.

Lemma decisions_NoDup (latitude longitude : float) (m : gmap string EventType)
    (active : list Geofence.t) :
  List.NoDup (map Geofence.id active) ->
  List.NoDup (map (fun d => Geofence.id d.1) (decisions latitude longitude m active)).
Proof.
  induction active as [|a rest IH]; intros Hnd; [constructor|].
  cbn [map] in Hnd. apply NoDup_cons_iff in Hnd as [Hnin Hnd].
  rewrite decisions_cons, map_app. unfold decisions at 1. cbn [flat_map].
  destruct (emitted _ _ a); cbn [map app fst]; [|by apply IH].
  apply NoDup_cons_iff. split; [|by apply IH].
  intros Hin. apply Hnin. apply in_map_iff in Hin as (d & Hd & Hdin).
  apply decisions_In in Hdin as [Hdin _]. rewrite <- Hd. by apply in_map.
Qed.

Lemma emitted_as_ids (user : User.t) (latitude longitude : float) (w : World)
    (ds : list (Geofence.t * EventType)) (ps : list (Transition.t * GeofenceEvent.t)) :
  Forall2 (emitted_as user latitude longitude w) ds ps ->
  map Transition.geofenceId (map fst ps) = map (fun d => Geofence.id d.1) ds.
Proof.
  induction 1 as [|d p ds ps Hdp _ IH]; [done|].
  destruct Hdp as (Hid & _). simpl. by rewrite Hid, IH.
Qed.

Lemma emitted_cases (lastState : option EventType) (inside : bool) (g : Geofence.t)
    (ty : EventType) :
  emitted lastState inside g = Some ty ->
  (ty = enter /\ inside = true /\ lastState <> Some enter /\
   Geofence.notifyEnter g = Some true) \/
  (ty = exit /\ inside = false /\ lastState = Some enter /\
   Geofence.notifyExit g = Some true).
Proof.
  unfold emitted. destruct inside.
  - destruct (bool_decide (lastState = Some enter)) eqn:E; simpl; [done|].
    apply bool_decide_eq_false in E.
    destruct (Geofence.notifyEnter g) as [[|]|]; simpl; try done.
    intros [= <-]. by left.
  - destruct (bool_decide (lastState = Some enter)) eqn:E; simpl; [|done].
    apply bool_decide_eq_true in E.
    destruct (Geofence.notifyExit g) as [[|]|]; simpl; try done.
    intros [= <-]. by right.
Qed.


(** X23. [POST /check] keeps the store well formed: the rows it appends
    are about geofences in the table, which it does not touch. *)
Theorem check_well_formed (user : User.t) (latitude longitude : float) (w : World) :
  well_formed w -> well_formed (check user latitude longitude w).2.
Proof.
  intros (Hpk & Hstored & Href).
  destruct (check_frame_cases user latitude longitude w) as [->|(fid & Hfam & Hne)];
    [done|].
  destruct (check_run user latitude longitude w fid Hfam Hne)
    as (ps & w' & E & _ & Hg & He & _ & _ & _ & _ & F).
  destruct (selectGeofences_run user fid w) as (n & _ & _ & _ & Hact).
  rewrite E. cbn [snd].
  unfold well_formed, primary_key, childIds_stored, events_reference.
  rewrite Hg, He. split; [done|]. split; [done|].
  intros e Hin. apply in_app_or in Hin as [Hin|Hin]; [by apply Href|].
  apply in_map_iff in Hin as (p & <- & Hp).
  destruct (Forall2_In_r _ _ _ p F Hp) as (d & Hd & Hdp).
  apply decisions_In in Hd as [Hd _].
  destruct Hdp as (_ & _ & _ & _ & Hrid & _).
  exists d.1. split; [by apply Hact|done].
Qed.
End Answer.


Lemma check_well_formed_witness :
  well_formed
    (@check RefMath.ref Example.kid 40 (-74)
       (Manage.world [Example.town; Example.campus] [])).2.
Proof.
  apply (@check_well_formed RefMath.ref). well_formed_example.
Defined.

(** ** One child's log does not reach another child's answer *)

Lemma blind_ret {A} (a : A) : events_blind (ret a).
Proof.
  intros w. exists []. split; [by rewrite app_nil_r|].
  intros log. unfold ret. cbn [fst snd]. by rewrite app_nil_r.
Qed.

Lemma blind_bind {A B} (m : M A) (k : A -> M B) :
  events_blind m -> (forall a, events_blind (k a)) -> events_blind (bind m k).
Proof.
  intros Hm Hk w. destruct (Hm w) as (rows1 & He1 & Hrun1).
  destruct (Hk (m w).1 (m w).2) as (rows2 & He2 & Hrun2).
  exists (rows1 ++ rows2). unfold bind. split.
  - destruct (m w) as [a w1]. cbn [fst snd] in *. by rewrite He2, He1, app_assoc.
  - intros log. rewrite Hrun1. destruct (m w) as [a w1]. cbn [fst snd] in *.
    rewrite Hrun2. by rewrite app_assoc.
Qed.

Lemma blind_state {A} (f : World -> A * World) :
  (forall w, geofenceEvents (f w).2 = geofenceEvents w) ->
  (forall w log, f (set_geofenceEvents log w) = ((f w).1, set_geofenceEvents log (f w).2)) ->
  events_blind f.
Proof.
  intros He Hrun w. exists []. split; [by rewrite app_nil_r, He|].
  intros log. by rewrite app_nil_r, Hrun.
Qed.

Lemma blind_issue (s : Statement) : events_blind (issue s).
Proof. by apply blind_state. Qed.

Lemma blind_new_Date : events_blind new_Date.
Proof. by apply blind_state. Qed.

Lemma blind_randomBytes (n : nat) : events_blind (randomBytes n).
Proof. by apply blind_state. Qed.

Lemma blind_generateId : events_blind generateId.
Proof.
  unfold generateId. apply blind_bind; [apply blind_randomBytes|].
  intros bytes. apply blind_ret.
Qed.

Lemma blind_insert_geofenceEvents (event : GeofenceEvent.t) :
  events_blind (insert_geofenceEvents event).
Proof. intros w. by exists [event]. Qed.

Lemma blind_isGeofenceActiveNow (schedule : option Schedule) :
  events_blind (isGeofenceActiveNow schedule).
Proof.
  destruct schedule as [s|]; cbn [isGeofenceActiveNow]; [|apply blind_ret].
  apply blind_bind; [apply blind_new_Date|]. intros now. apply blind_ret.
Qed.

Lemma blind_activeGeofences (applicable : list Geofence.t) :
  events_blind (activeGeofences applicable).
Proof.
  induction applicable as [|g rest IH]; cbn [activeGeofences]; [apply blind_ret|].
  apply blind_bind; [apply blind_isGeofenceActiveNow|]. intros keep.
  apply blind_bind; [apply IH|]. intros rest'. apply blind_ret.
Qed.

Lemma blind_selectGeofences (user : User.t) (fid : string) :
  events_blind (selectGeofences user fid).
Proof.
  unfold selectGeofences. apply blind_bind; [|intros l; apply blind_activeGeofences].
  unfold findMany_geofences. apply blind_bind; [apply blind_issue|].
  intros _. by apply blind_state.
Qed.

Section Blind.
Context `{HostMath}.

Lemma blind_emit (user : User.t) (latitude longitude : float) (g : Geofence.t)
    (ty : EventType) (events : list Transition.t) :
  events_blind (emit user latitude longitude g ty events).
Proof.
  unfold emit. apply blind_bind; [apply blind_generateId|]. intros eventId.
  apply blind_bind; [apply blind_new_Date|]. intros timestamp.
  apply blind_bind; [apply blind_insert_geofenceEvents|]. intros _. apply blind_ret.
Qed.

Lemma blind_checkGeofence (user : User.t) (latitude longitude : float)
    (m : gmap string EventType) (acc : list Transition.t * list string) (g : Geofence.t) :
  events_blind (checkGeofence user latitude longitude m acc g).
Proof.
  unfold checkGeofence. destruct acc as [events zones].
  destruct (isInside latitude longitude g).
  - destruct (_ && _); [|apply blind_ret].
    apply blind_bind; [apply blind_emit|]. intros events'. apply blind_ret.
  - destruct (_ && _); [|apply blind_ret].
    apply blind_bind; [apply blind_emit|]. intros events'. apply blind_ret.
Qed.

Lemma blind_checkAll (user : User.t) (latitude longitude : float)
    (m : gmap string EventType) (active : list Geofence.t)
    (acc : list Transition.t * list string) :
  events_blind (checkAll user latitude longitude m active acc).
Proof.
  revert acc. induction active as [|g rest IH]; intros acc; cbn [checkAll];
    [apply blind_ret|].
  apply blind_bind; [apply blind_checkGeofence|]. intros acc'. apply IH.
Qed.

Lemma check_steps (user : User.t) (latitude longitude : float) (w : World) :
  negb (truthy_str (User.familyId user)) = false ->
  check user latitude longitude w
    = (let p := selectGeofences user (default "" (User.familyId user)) w in
       let lastEvents :=
         firstn (length p.1)
           (orderBy_desc_timestamp
              (List.filter (fun e => String.eqb (GeofenceEvent.childId e) (User.id user))
                 (geofenceEvents p.2))) in
       let q := checkAll user latitude longitude (lastStateMap lastEvents) p.1 ([], [])
                  (set_journal (journal p.2 ++ [SELECT tbl_geofenceEvents]) p.2) in
       (res_json 200 {| events := q.1.1; currentZones := q.1.2 |}, q.2)).
Proof.
  intros Hfam. unfold check. rewrite Hfam. cbv zeta.
  unfold bind at 1. destruct (selectGeofences _ _ w) as [active w1].
  unfold bind at 1. unfold findMany_geofenceEvents, bind at 1, issue.
  cbn [fst snd geofenceEvents set_journal].
  unfold bind, ret. by destruct (checkAll _ _ _ _ _ _ _).
Qed.

End Blind.


(** ** Writing, then reading *)

Lemma createGeofence_created (user : User.t) (body : CreateBody.t) (w : World)
    (row : Geofence.t) :
  (createGeofence user body w).1
    = reply_geofence 201 (Some "Geofence created successfully") row ->
  ~ In (Geofence.id row) (map Geofence.id (geofences w)) /\
  geofences (createGeofence user body w).2 = geofences w ++ [row] /\
  User.familyId user = Some (Geofence.familyId row) /\
  Geofence.userId row = User.id user.
Proof.
  intros Hreply.
  destruct (createGeofence_cases user body w)
    as [[_ E]|[(_ & _ & _ & E)|(Hfam & _ & E)]];
    rewrite E in *; try discriminate.
  set (wq := if truthy_str (CreateBody.childId body)
             then set_journal (journal w ++ [SELECT tbl_users]) w else w) in *.
  assert (geofences wq = geofences w) as Hg
    by (subst wq; by destruct (truthy_str (CreateBody.childId body))).
  destruct (storeGeofence_cases user body wq) as (_ & Hcases). cbv zeta in Hcases.
  set (id := (generateId wq).1) in *. clearbody id. rewrite Hg in Hcases.
  destruct Hcases as [[_ E']|[Hfresh E']]; rewrite E' in *; [discriminate|].
  cbn [fst snd] in *. injection Hreply as <-.
  split; [done|]. split; [by rewrite <- Hg|].
  unfold newGeofence. cbn [Geofence.familyId Geofence.userId]. split; [|done].
  destruct (User.familyId user); [done|discriminate].
Qed.

Lemma withNames_nil (w : World) : withNames [] w = ([], w).
Proof. done. Qed.

(** X25. A geofence that [POST /] has just stored can be read back under
    its id: [GET /:id] shows exactly the stored row to every member of the
    creator's family and answers 403 to everybody else, and its event list
    is empty. *)
Theorem create_then_read (parent reader : User.t) (body : CreateBody.t) (w : World)
    (limit : option nat) :
  well_formed w ->
  let created := createGeofence parent body w in
  forall row,
    created.1 = reply_geofence 201 (Some "Geofence created successfully") row ->
    (get_geofence reader (Geofence.id row) created.2).1
      = (if bool_decide (User.familyId reader = User.familyId parent)
         then reply_geofence 200 None row
         else reply_error 403 "Access denied") /\
    (User.familyId reader = User.familyId parent ->
     (get_geofence_events reader (Geofence.id row) limit created.2).1
       = reply_events 200 []).
Proof.
  intros (Hpk & _ & Href) created row Hreply.
  destruct (createGeofence_created parent body w row Hreply) as (Hfresh & Hg & Hfam & _).
  destruct (createGeofence_tables parent body w) as (He & _).
  pose proof (createGeofence_primary_key parent body w Hpk) as Hpk'.
  fold created in Hg, He, Hpk'.
  assert (In row (geofences created.2)) as Hin.
  { rewrite Hg. apply in_or_app. right. by left. }
  rewrite get_geofence_cases, get_geofence_events_cases. cbv zeta.
  rewrite (find_by_id created.2 row Hpk' Hin). rewrite Hfam. split.
  - destruct (bool_decide (reader.(User.familyId) = Some (Geofence.familyId row))) eqn:E.
    + apply bool_decide_eq_true in E. by rewrite bool_decide_eq_true_2.
    + apply bool_decide_eq_false in E. by rewrite bool_decide_eq_false_2.
  - intros Hsame. rewrite bool_decide_eq_true_2 by done. cbn [negb].
    rewrite He, filter_none; [by destruct (events_limit limit)|].
    intros e Hein. apply String.eqb_neq. intros Hid.
    destruct (Href e Hein) as (g & Hgin & Hgid).
    apply Hfresh. rewrite <- Hid, <- Hgid. by apply in_map.
Qed.

(** Mum creates "Home"; the aunt reads it back. *)
Lemma create_then_read_witness :
  let w := Manage.world [Example.town] [] in
  let row := newGeofence Manage.mum (generateId w).1 (Manage.home_body None) in
  (get_geofence Manage.aunt (Geofence.id row)
     (createGeofence Manage.mum (Manage.home_body None) w).2).1
    = reply_geofence 200 None row.
Proof.
  intros w row.
  assert (well_formed w) as Hwf by well_formed_example.
  assert ((createGeofence Manage.mum (Manage.home_body None) w).1
            = reply_geofence 201 (Some "Geofence created successfully") row) as Hrow
    by (vm_compute; reflexivity).
  destruct (create_then_read Manage.mum Manage.aunt (Manage.home_body None) w None
              Hwf row Hrow) as [Hget _].
  rewrite Hget. reflexivity.
Defined.

(** X26. What [PATCH /:id] has written is what [GET /:id] reads: after the
    creator's update, every member of the geofence's family is shown the
    updated row. *)
Theorem update_then_read (owner reader : User.t) (body : PatchBody.t) (w : World)
    (g : Geofence.t) :
  primary_key w -> In g (geofences w) -> Geofence.userId g = User.id owner ->
  User.familyId reader = Some (Geofence.familyId g) ->
  let w' := (updateGeofence owner (Geofence.id g) body w).2 in
  (get_geofence reader (Geofence.id g) w').1
    = reply_geofence 200 None (apply_updates body g).
Proof.
  intros Hpk Hin Hown Hfam w'.
  assert (geofences w'
            = map (fun x => if String.eqb (Geofence.id x) (Geofence.id g)
                            then apply_updates body x else x) (geofences w)) as Hg.
  { subst w'. rewrite updateGeofence_cases. cbv zeta.
    rewrite find_by_id by done. by rewrite Hown, String.eqb_refl. }
  assert (map Geofence.id (geofences w') = map Geofence.id (geofences w)) as Hids.
  { rewrite Hg. apply map_update_proj. by intros x; destruct body. }
  assert (primary_key w') as Hpk' by (unfold primary_key; by rewrite Hids).
  assert (In (apply_updates body g) (geofences w')) as Hin'.
  { rewrite Hg. apply in_map_iff. exists g. by rewrite String.eqb_refl. }
  rewrite get_geofence_cases. cbv zeta.
  change (Geofence.id g) with (Geofence.id (apply_updates body g)).
  rewrite (find_by_id w' _ Hpk' Hin').
  change (Geofence.familyId (apply_updates body g)) with (Geofence.familyId g).
  by rewrite bool_decide_eq_true_2.
Qed.

Lemma update_then_read_witness :
  (get_geofence Manage.aunt "g-town"
     (updateGeofence Manage.mum "g-town" Manage.switch_off
        (Manage.world [Example.town; Example.campus] [])).2).1
    = reply_geofence 200 None (apply_updates Manage.switch_off Example.town).
Proof.
  apply (update_then_read Manage.mum Manage.aunt Manage.switch_off
           (Manage.world [Example.town; Example.campus] []) Example.town);
    [distinct_ids|simpl; tauto|reflexivity|reflexivity].
Defined.

(** X27. A deleted geofence is gone for every reader: after the creator's
    [DELETE /:id], [GET /:id] and [GET /:id/events] answer 404, and a
    second [DELETE /:id] or a [PATCH /:id] answers 404 as well. *)
Theorem delete_then_read (owner reader : User.t) (w : World) (g : Geofence.t)
    (limit : option nat) (body : PatchBody.t) :
  primary_key w -> In g (geofences w) -> Geofence.userId g = User.id owner ->
  let w' := (deleteGeofence owner (Geofence.id g) w).2 in
  (get_geofence reader (Geofence.id g) w').1 = reply_error 404 "Geofence not found" /\
  (get_geofence_events reader (Geofence.id g) limit w').1
    = reply_error 404 "Geofence not found" /\
  (updateGeofence reader (Geofence.id g) body w').1
    = reply_error 404 "Geofence not found" /\
  (deleteGeofence reader (Geofence.id g) w').1 = reply_error 404 "Geofence not found".
Proof.
  intros Hpk Hin Hown w'.
  assert (head (List.filter (fun x => String.eqb (Geofence.id x) (Geofence.id g))
                  (geofences w')) = None) as Hgone.
  { apply find_by_id_none. subst w'. rewrite deleteGeofence_cases. cbv zeta.
    rewrite find_by_id by done. rewrite Hown, String.eqb_refl.
    cbn [snd geofences set_geofences]. intros Hmem.
    apply in_map_iff in Hmem as (x & Hid & Hx). apply filter_In in Hx as [_ Hx].
    apply negb_true_iff, String.eqb_neq in Hx. done. }
  rewrite get_geofence_cases, get_geofence_events_cases, updateGeofence_cases,
    deleteGeofence_cases.
  cbv zeta. by rewrite Hgone.
Qed.

Lemma delete_then_read_witness :
  (get_geofence Manage.aunt "g-town"
     (deleteGeofence Manage.mum "g-town"
        (Manage.world [Example.town; Example.campus] [])).2).1
    = reply_error 404 "Geofence not found".
Proof.
  destruct (delete_then_read Manage.mum Manage.aunt
              (Manage.world [Example.town; Example.campus] []) Example.town None
              Manage.no_change) as [Hget _];
    [distinct_ids|simpl; tauto|reflexivity|].
  exact Hget.
Defined.

(** ** The loop that fills the state map *)

Lemma head_filter_split {A} (f : A -> bool) (l : list A) (x : A) :
  head (List.filter f l) = Some x <->
  exists pre post, l = pre ++ x :: post /\ f x = true /\
                   forall y, In y pre -> f y = false.
Proof.
  split.
  - induction l as [|a l IH]; [done|]. cbn [List.filter].
    destruct (f a) eqn:E.
    + intros [= ->]. by exists [], l.
    + intros Hh. destruct (IH Hh) as (pre & post & -> & Hx & Hpre).
      exists (a :: pre), post. split; [done|]. split; [done|].
      intros y [<-|Hy]; [done|by apply Hpre].
  - intros (pre & post & -> & Hx & Hpre).
    rewrite List.filter_app, (filter_none f pre Hpre). cbn [app List.filter].
    by rewrite Hx.
Qed.

(** X28. The map that [POST /check] builds from the events it has read
    keeps, for each geofence, the first [enter] or [exit] of the list: an
    id is mapped to a type exactly when the list has an event of that id and
    type, not a [dwell], before which every event of the id is a [dwell].
    Events after it change nothing, and the map never holds [dwell]. *)
Theorem lastStateMap_first_wins (l : list GeofenceEvent.t) (k : string) (ty : EventType) :
  (lastStateMap l !! k = Some ty <->
   exists pre e post,
     l = pre ++ e :: post /\
     GeofenceEvent.geofenceId e = k /\ GeofenceEvent.eventType e = ty /\ ty <> dwell /\
     forall x, In x pre -> GeofenceEvent.geofenceId x = k ->
               GeofenceEvent.eventType x = dwell) /\
  lastStateMap l !! k <> Some dwell /\
  (forall more, is_Some (lastStateMap l !! k) ->
     lastStateMap (l ++ more) !! k = lastStateMap l !! k).
Proof.
  assert (forall e, is_state_of k e = true <->
            GeofenceEvent.geofenceId e = k /\ GeofenceEvent.eventType e <> dwell) as Hst.
  { intros e. unfold is_state_of. rewrite andb_true_iff, String.eqb_eq, orb_true_iff,
      !bool_decide_eq_true.
    destruct (GeofenceEvent.eventType e); split; intros [Hid Hty]; (split; [done|]);
      first [done | by left | by right | by destruct Hty]. }
  split; [|split].
  - rewrite lastStateMap_lookup. split.
    + intros Hl. destruct (head _) as [e|] eqn:Hh; [|done].
      injection Hl as <-.
      apply head_filter_split in Hh as (pre & post & -> & He & Hpre).
      apply Hst in He as [Hid Hty].
      exists pre, e, post. repeat split; try done.
      intros x Hx Hxid. specialize (Hpre x Hx).
      destruct (GeofenceEvent.eventType x) eqn:Ex; [| |done];
        exfalso; (assert (is_state_of k x = true) as Hcon
          by (apply Hst; split; [done|by rewrite Ex])); congruence.
    + intros (pre & e & post & -> & Hid & Hty & Hne & Hpre).
      assert (head (List.filter (is_state_of k) (pre ++ e :: post)) = Some e) as ->;
        [|by rewrite <- Hty].
      apply head_filter_split. exists pre, post. split; [done|]. split.
      * apply Hst. by rewrite Hty.
      * intros y Hy. destruct (is_state_of k y) eqn:Ey; [|done].
        apply Hst in Ey as [Hyid Hyty]. by destruct Hyty; apply Hpre.
  - rewrite lastStateMap_lookup. destruct (head _) as [e|] eqn:Hh; [|done].
    apply head_filter_Some in Hh as [_ He]. apply Hst in He as [_ Hty].
    cbn. by intros [= Hd].
  - intros more [v Hv]. rewrite !lastStateMap_lookup in *.
    rewrite List.filter_app. by destruct (List.filter (is_state_of k) l).
Qed.

(** ** What the child reported is what the parent reads *)

Section ReportThenRead.
Context `{HostMath}.

(** X29. An event that [POST /check] has just reported for a geofence heads
    the list that [GET /:id/events] shows to a member of the family,
    provided the clock is ahead of the geofence's older rows: the first entry
    is for that geofence and the reporting child, of the reported type, at
    the reported position. *)
Theorem report_then_read (child reader : User.t) (latitude longitude : float) (w : World)
    (fid : string) (g : Geofence.t) (ty : EventType) (limit : option nat) :
  User.familyId child = Some fid -> fid <> "" -> User.familyId reader = Some fid ->
  primary_key w -> In g (geofences w) -> Geofence.familyId g = fid ->
  (forall e j, In e (geofenceEvents w) -> GeofenceEvent.geofenceId e = Geofence.id g ->
     ticks w <= j -> (GeofenceEvent.timestamp e < mapToDriverValue (clock w j))%Z) ->
  let r := check child latitude longitude w in
  eventsFor g r.1 = [ty] ->
  exists first rest,
    (get_geofence_events reader (Geofence.id g) limit r.2).1
      = reply_events 200 (first :: rest) /\
    GeofenceEvent.geofenceId (Named.event first) = Geofence.id g /\
    GeofenceEvent.childId (Named.event first) = User.id child /\
    GeofenceEvent.eventType (Named.event first) = ty /\
    GeofenceEvent.latitude (Named.event first) = latitude /\
    GeofenceEvent.longitude (Named.event first) = longitude /\
    ~ In (Named.event first) (geofenceEvents w).
Proof.
  intros Hfam Hne Hreader Hpk Hin Hgf Hclock r Hev.
  destruct (check_outcome child latitude longitude w fid Hfam Hne) as (_ & _ & Hout).
  destruct (Hout g) as [_ Hrows]. fold r in Hrows. rewrite Hev in Hrows.
  destruct (check_run child latitude longitude w fid Hfam Hne)
    as (ps & w' & E & _ & Hg & He & _ & _ & _ & _ & F).
  subst r. rewrite E in *. cbn [fst snd] in *.
  assert (newRows w w' = map snd ps) as Hnew.
  { unfold newRows. by rewrite He, skipn_app, skipn_all, Nat.sub_diag. }
  unfold rowsFor in Hrows. rewrite Hnew in Hrows.
  set (about := fun e => String.eqb (GeofenceEvent.geofenceId e) (Geofence.id g)) in *.
  destruct (List.filter about (map snd ps)) as [|row [|? ?]] eqn:Hfilter;
    try discriminate.
  injection Hrows as Hty.
  assert (In row (map snd ps) /\ about row = true) as [Hrow Habout].
  { apply filter_In. rewrite Hfilter. by left. }
  apply in_map_iff in Hrow as (p & Hp & Hpin).
  destruct (Forall2_In_r _ _ _ p F Hpin) as (d & _ & Hdp).
  destruct Hdp as (_ & _ & _ & (j & Hj & Hstamp) & _ & Hchild & _ & Hlat & Hlon & Hts).
  rewrite Hp in Hchild, Hlat, Hlon, Hts. rewrite Hstamp in Hts.
  assert (forall e, In e (geofenceEvents w) -> about e = true ->
            (GeofenceEvent.timestamp e < GeofenceEvent.timestamp row)%Z) as Holder.
  { intros e Hein Hab. rewrite Hts. apply Hclock; [done| |done].
    by apply String.eqb_eq. }
  rewrite get_geofence_events_cases. cbv zeta.
  assert (primary_key w') as Hpk' by (unfold primary_key; by rewrite Hg).
  rewrite (find_by_id w' g Hpk') by by rewrite Hg.
  rewrite Hgf, Hreader, bool_decide_eq_true_2 by done. cbn [negb].
  fold about. rewrite He, List.filter_app, Hfilter.
  rewrite orderBy_desc_newer.
  2:{ intros o n Ho [<-|[]]. apply filter_In in Ho as [Ho Hab]. by apply Holder. }
  change (orderBy_desc_timestamp [row]) with [row].
  assert (exists k, events_limit limit = S k) as (k & ->)
    by (destruct limit as [[|n]|]; by eexists).
  cbn [app firstn].
  set (w2 := set_journal _ _).
  destruct (withNames_run
              (row :: firstn k (orderBy_desc_timestamp (List.filter about (geofenceEvents w))))
              w2) as (named & w3 & -> & _ & _ & _ & Hmap & _).
  destruct named as [|first rest]; [discriminate|].
  injection Hmap as Hfirst _.
  exists first, rest. cbn [fst]. rewrite Hfirst.
  split; [done|]. split; [by apply String.eqb_eq|]. repeat (split; [done|]).
  intros Hold. specialize (Holder row Hold Habout). lia.
Qed.
End ReportThenRead.

(** The kid enters "Town"; mum then reads the events of "Town". *)
Lemma report_then_read_witness :
  let w := Manage.world [Example.town; Example.campus] [] in
  exists first rest,
    (get_geofence_events Manage.mum "g-town" None
       (@check RefMath.ref Example.kid 40 (-74) w).2).1
      = reply_events 200 (first :: rest) /\
    GeofenceEvent.childId (Named.event first) = "kid" /\
    GeofenceEvent.eventType (Named.event first) = enter.
Proof.
  intros w.
  destruct (@report_then_read RefMath.ref Example.kid Manage.mum 40%float (-74)%float w
              "fam" Example.town enter None)
    as (first & rest & Hr & _ & Hc & Hty & _);
    [reflexivity|discriminate|reflexivity|distinct_ids|simpl; tauto|reflexivity
    |intros e j []|vm_compute; reflexivity|].
  exists first, rest. split; [exact Hr|]. split; [exact Hc|exact Hty].
Defined.

(** ** Instances of the shapes above *)

(** The first character of a pairing code is drawn from the alphabet. *)
Lemma createPairingCode_shape_witness :
  exists c, String.get 0 (createPairingCode (Manage.world [] [])).1 = Some c /\
            In c (list_ascii_of_string alphabet).
Proof.
  destruct (createPairingCode_shape (Manage.world [] [])) as (_ & _ & Hchars & _).
  apply (Hchars 0); lia.
Defined.


(** An [exit] read first wins over the [enter] that follows it in the
    list, and over what is read after. *)
Lemma lastStateMap_first_wins_witness :
  lastStateMap
    ([{| GeofenceEvent.id := "e-2"; GeofenceEvent.geofenceId := "g-town";
         GeofenceEvent.childId := "kid"; GeofenceEvent.eventType := exit;
         GeofenceEvent.latitude := 41; GeofenceEvent.longitude := (-74);
         GeofenceEvent.timestamp := 9 |}]
     ++ [{| GeofenceEvent.id := "e-1"; GeofenceEvent.geofenceId := "g-town";
            GeofenceEvent.childId := "kid"; GeofenceEvent.eventType := enter;
            GeofenceEvent.latitude := 40; GeofenceEvent.longitude := (-74);
            GeofenceEvent.timestamp := 5 |}]) !! "g-town" = Some exit.
Proof.
  destruct (lastStateMap_first_wins
              [{| GeofenceEvent.id := "e-2"; GeofenceEvent.geofenceId := "g-town";
                  GeofenceEvent.childId := "kid"; GeofenceEvent.eventType := exit;
                  GeofenceEvent.latitude := 41; GeofenceEvent.longitude := (-74);
                  GeofenceEvent.timestamp := 9 |}] "g-town" exit) as (_ & _ & Hmore).
  rewrite Hmore; [reflexivity|]. by eexists.
Defined.
